(** * pcap/capture.go: data-source descriptors and the flow reassembly loop

    A shallow embedding of [CreateHandler] and [StartCapture] of package
    [pcap], with the part of the Go run time the loop depends on: slice
    headers over shared backing arrays, [append], slice expressions, maps. *)

From Stdlib Require Import ZArith Lia.
From Stdlib Require Import Strings.Byte Strings.Ascii.
From stdpp Require Import gmap list strings.

Local Open Scope Z_scope.

(** ** Go slices

    A slice value is a header: a pointer into a backing array, a length and a
    capacity.  Headers are copied by assignment, by a map lookup and by a map
    store; the backing array is shared by all the headers that point into it.
    The memory of the program is the list of the backing arrays allocated so
    far, an array being named by its index.  An array is kept as the cells
    written so far; the cells after them hold zero bytes. *)

Abbreviation heap := (list (list byte)).

Record slice := Slice {
  base : option nat;   (* the backing array; None for the nil slice *)
  off : Z;             (* index in the array of the slice's first cell *)
  len : Z;
  cap : Z
}.

Definition nil_slice : slice := Slice None 0 0 0.

Definition array_of (h : heap) (s : slice) : list byte :=
  match base s with
  | Some a => default [] (h !! a)
  | None => []
  end.

(** The bytes a reader of [s] sees: cells [off .. off+len) of its array. *)
Definition bytes (h : heap) (s : slice) : list byte :=
  resize (Z.to_nat (len s)) x00 (drop (Z.to_nat (off s)) (array_of h s)).

(** [make([]byte, n, c)]: a fresh zeroed array. *)
Definition make (h : heap) (n c : Z) : heap * slice :=
  (h ++ [replicate (Z.to_nat n) x00], Slice (Some (length h)) 0 n c).

(** Writing [p] into an array from cell [pos] on; the other cells keep their
    contents. *)
Definition store (pos : nat) (p : list byte) (a : list byte) : list byte :=
  resize pos x00 a ++ p ++ drop (pos + length p) a.

(** The capacity of a reallocated array.  The run time picks some capacity of
    at least the [needed] length; no content depends on which one. *)
Definition growcap (old needed : Z) : Z := Z.max needed (2 * old).

(** [append(s, p...)]: when the capacity suffices the bytes are written in
    place after the slice's last cell, in the array [s] points into, and the
    result is a longer header on the same array; otherwise a new array
    receives the bytes of [s] followed by [p].  The header [s] itself, and
    every copy of it held elsewhere, keeps its length. *)
Definition append (h : heap) (s : slice) (p : list byte) : heap * slice :=
  let n := len s + Z.of_nat (length p) in
  if decide (n <= cap s) then
    match base s with
    | Some a =>
        (alter (store (Z.to_nat (off s + len s)) p) a h,
         Slice (Some a) (off s) n (cap s))
    | None => (h, s)
    end
  else
    (h ++ [bytes h s ++ p], Slice (Some (length h)) 0 n (growcap (cap s) n)).

(** [s[k:]]: defined for [0 <= k <= len(s)], a run-time panic otherwise
    ([None]). *)
Definition slice_from (s : slice) (k : Z) : option slice :=
  if decide (0 <= k <= len s)
  then Some (Slice (base s) (off s + k) (len s - k) (cap s - k))
  else None.

(** ** Errors, addresses and decoded packets *)

(** Go [error] values: the sentinel [io.EOF], an [errors.New] message, or an
    error wrapped by [errors.WithStack].  [err == io.EOF] holds of the
    sentinel alone. *)
Inductive error :=
  | io_EOF
  | errors_New (msg : string)
  | errors_WithStack (e : error).

Definition is_EOF (e : error) : bool :=
  match e with io_EOF => true | _ => false end.

Definition IP := list byte.

(** [net.Addr] values built by the loop; [option Addr] is the interface
    type, [None] its nil value. *)
Inductive Addr :=
  | TCPAddr (ip : IP) (port : Z)
  | UDPAddr (ip : IP) (port : Z).

Inductive LayerType :=
  | LayerTypeTCP
  | LayerTypeUDP
  | LayerTypeOther (name : string).

Definition LayerType_String (t : LayerType) : string :=
  match t with
  | LayerTypeTCP => "TCP"
  | LayerTypeUDP => "UDP"
  | LayerTypeOther name => name
  end.

Record IPv4 := {
  SrcIP : IP;
  DstIP : IP;
  NextLayerType : LayerType
}.

Record TCP := {
  tcp_SrcPort : Z;
  tcp_DstPort : Z;
  SYN : bool;
  ACK : bool;
  FIN : bool;
  tcp_Payload : list byte
}.

Record UDP := {
  udp_SrcPort : Z;
  udp_DstPort : Z;
  udp_Payload : list byte
}.

(** What [pkg.Layer(t)] returns, a value of interface type [gopacket.Layer]:
    the nil interface when the packet has no layer of type [t], otherwise a
    pointer to the decoded layer.  gopacket's decoders never wrap a nil
    pointer; the case is kept because line 107 tests for it. *)
Inductive Layer (T : Type) :=
  | no_layer
  | layer_ptr (p : option T).
Arguments no_layer {T}.
Arguments layer_ptr {T} p.

Inductive panic :=
  | interface_conversion   (* x.(T) on a nil interface *)
  | nil_dereference        (* field access through a nil pointer *)
  | slice_bounds.          (* slice bounds out of range *)

(** The type assertion [x.(T)] to a pointer type [T]: panics on the nil
    interface. *)
Definition assert_type {T} (x : Layer T) : panic + option T :=
  match x with
  | no_layer => inl interface_conversion
  | layer_ptr p => inr p
  end.

(** The two-result form [v, _ := x.(T)]: the nil pointer on the nil
    interface, no panic. *)
Definition assert_type_ok {T} (x : Layer T) : option T :=
  match x with
  | no_layer => None
  | layer_ptr p => p
  end.

Record Packet := {
  Layer_IPv4 : Layer IPv4;
  Layer_TCP : Layer TCP;
  Layer_UDP : Layer UDP
}.

(** Transport flows: gopacket builds them from the two ports. *)
Inductive EndpointType := EndpointTCPPort | EndpointUDPPort.

Record Flow := NewFlow {
  flow_typ : EndpointType;
  flow_src : Z;
  flow_dst : Z
}.

Definition TCP_TransportFlow (tcp : TCP) : Flow :=
  NewFlow EndpointTCPPort (tcp_SrcPort tcp) (tcp_DstPort tcp).

Definition UDP_TransportFlow (udp : UDP) : Flow :=
  NewFlow EndpointUDPPort (udp_SrcPort udp) (udp_DstPort udp).

Definition defaultTCPBufferLen : Z := 1024 * 1024.

(** ** StartCapture *)

(** One Consumer invocation: the arguments as the Consumer sees them, and
    what it returned. *)
Record call := Call {
  call_src : option Addr;
  call_dst : option Addr;
  call_data : list byte;
  call_used : Z;
  call_err : option error
}.

Inductive logline :=
  | log_unsupported (layer : string)
  | log_handler_failed (src dst : option Addr) (e : error).

(** What the loop waits for in its [select]: the context is done, or the
    packet channel delivers; a closed channel delivers nil. *)
Inductive event :=
  | ctx_Done
  | recv (pkg : option Packet).

Section Capture.

(** [Flow.FastHash] of gopacket, a [uint64]. *)
Variable FastHash : Flow -> Z.

(** The state a handler closure keeps between its calls. *)
Context {CS : Type}.

(** Modelled from the spec: the type [pkt4go.DataHandler], declared in the
    root package and not in [pcap/capture.go].  The Consumer contract is a
    function of the source endpoint, the destination endpoint and a byte
    slice that returns the count of bytes consumed from the start of the
    slice and an error or nil; line 161 calls it so.  The handler reads
    [data[0:len(data)]]; it neither writes through the slice nor keeps
    it. *)
Definition DataHandler : Type :=
  CS -> option Addr -> option Addr -> list byte -> (Z * option error) * CS.

Record state := State {
  mem : heap;
  sessionBuffers : gmap Z slice;
  handlerState : CS;
  calls : list call;        (* Consumer invocations so far, oldest first *)
  logged : list logline
}.

Definition with_mem (st : state) (h : heap) : state :=
  State h (sessionBuffers st) (handlerState st) (calls st) (logged st).

Definition with_buffers (st : state) (m : gmap Z slice) : state :=
  State (mem st) m (handlerState st) (calls st) (logged st).

Definition with_log (st : state) (l : logline) : state :=
  State (mem st) (sessionBuffers st) (handlerState st) (calls st)
        (logged st ++ [l]).

Definition with_call (st : state) (c : call) (cs : CS) : state :=
  State (mem st) (sessionBuffers st) cs (calls st ++ [c]) (logged st).

(** How one pass through the loop body ends. *)
Inductive control :=
  | Continue (st : state)
  | Return (err : option error) (st : state)
  | Panic (p : panic) (st : state).

(** How the [switch] on the transport layer ends (lines 119-159): with
    [continue], with a panic, or by falling out of the switch with the
    locals [src], [dst], [flowHash] and [buffer] set. *)
Inductive switched :=
  | Skip (st : state)
  | Crash (p : panic) (st : state)
  | Fall (src dst : option Addr) (flowHash : Z) (buffer : slice) (st : state).

Definition case_TCP (st : state) (ip : IPv4) (pkg : Packet) : switched :=
  match assert_type_ok (Layer_TCP pkg) with
  | None => Crash nil_dereference st
  | Some tcp =>
      let src := Some (TCPAddr (SrcIP ip) (tcp_SrcPort tcp)) in
      let dst := Some (TCPAddr (DstIP ip) (tcp_DstPort tcp)) in
      let flowHash := FastHash (TCP_TransportFlow tcp) in
      if SYN tcp && ACK tcp then
        let '(h, b) := make (mem st) 0 defaultTCPBufferLen in
        Skip (with_buffers (with_mem st h) (<[flowHash := b]> (sessionBuffers st)))
      else if FIN tcp && ACK tcp then
        Skip (with_buffers st (delete flowHash (sessionBuffers st)))
      else if decide (Z.of_nat (length (tcp_Payload tcp)) <= 0) then
        Skip st
      else
        match sessionBuffers st !! flowHash with
        | None => Skip st
        | Some buffer =>
            let '(h, buffer) := append (mem st) buffer (tcp_Payload tcp) in
            Fall src dst flowHash buffer (with_mem st h)
        end
  end.

Definition case_UDP (st : state) (ip : IPv4) (pkg : Packet) : switched :=
  match assert_type_ok (Layer_UDP pkg) with
  | None => Crash nil_dereference st
  | Some udp =>
      let src := Some (UDPAddr (SrcIP ip) (udp_SrcPort udp)) in
      let dst := Some (UDPAddr (DstIP ip) (udp_DstPort udp)) in
      let flowHash := FastHash (UDP_TransportFlow udp) in
      match sessionBuffers st !! flowHash with
      | Some buffer =>
          let '(h, buffer) := append (mem st) buffer (udp_Payload udp) in
          Fall src dst flowHash buffer (with_mem st h)
      | None => Fall src dst flowHash nil_slice st
      end
  end.

Definition switch (st : state) (ip : IPv4) (pkg : Packet) : switched :=
  match NextLayerType ip with
  | LayerTypeTCP => case_TCP st ip pkg
  | LayerTypeUDP => case_UDP st ip pkg
  | t =>
      Fall None None 0 nil_slice
           (with_log st (log_unsupported (LayerType_String t)))
  end.

(** Lines 161-171: the Consumer call and what the loop does with its
    result. *)
Definition consume (fn : DataHandler) (st : state)
    (src dst : option Addr) (flowHash : Z) (buffer : slice) : control :=
  let data := bytes (mem st) buffer in
  let '((usedSize, err), cs) := fn (handlerState st) src dst data in
  let st := with_call st (Call src dst data usedSize err) cs in
  match err with
  | Some e =>
      if is_EOF e then Return None st
      else Continue (with_log st (log_handler_failed src dst e))
  | None =>
      if decide (len buffer ≠ usedSize) then
        match slice_from buffer usedSize with
        | Some rest =>
            Continue (with_buffers st (<[flowHash := rest]> (sessionBuffers st)))
        | None => Panic slice_bounds st
        end
      else Continue st
  end.

(** The loop body for a packet received from the channel (lines 102-171);
    [fn] is [None] for a nil handler. *)
Definition iteration (fn : option DataHandler) (st : state) (pkg : Packet)
    : control :=
  match fn with
  | None => Continue st
  | Some fn =>
      match assert_type (Layer_IPv4 pkg) with
      | inl p => Panic p st
      | inr None =>
          Return (Some (errors_New "captured packet is not a valid IPv4 packet")) st
      | inr (Some ip) =>
          match switch st ip pkg with
          | Skip st => Continue st
          | Crash p st => Panic p st
          | Fall src dst flowHash buffer st =>
              consume fn st src dst flowHash buffer
          end
      end
  end.

(** The [for]/[select] loop over the events the loop observes.  When the
    events run out the loop is blocked in [select]: [Continue]. *)
Fixpoint loop (fn : option DataHandler) (st : state) (evs : list event)
    : control :=
  match evs with
  | [] => Continue st
  | ctx_Done :: _ => Return None st
  | recv None :: _ => Return None st
  | recv (Some pkg) :: evs =>
      match iteration fn st pkg with
      | Continue st => loop fn st evs
      | stop => stop
      end
  end.

Definition initial (cs : CS) : state := State [] ∅ cs [] [].

(** [SetBPFFilter] is the capture adapter's; its result is an input here. *)
Definition StartCapture (SetBPFFilter : option error)
    (fn : option DataHandler) (cs : CS) (evs : list event) : control :=
  match SetBPFFilter with
  | Some err => Return (Some (errors_WithStack err)) (initial cs)
  | None => loop fn (initial cs) evs
  end.

End Capture.

(** ** CreateHandler *)

(** [s] without the prefix [p], when [s] starts with [p]. *)
Fixpoint strip_prefix (p s : string) : option string :=
  match p, s with
  | EmptyString, _ => Some s
  | String a p, String b s => if Ascii.eqb a b then strip_prefix p s else None
  | String _ _, EmptyString => None
  end.

(** What a starred dot followed by [$] accepts: without the [s] flag a dot
    matches any character but a newline, and without the [m] flag [$]
    matches at the end of the text only. *)
Definition dot_star_end (s : string) : bool :=
  forallb (fun c => negb (Ascii.eqb c "010"%char)) (String.list_ascii_of_string s).

(** [dataSourcePattern.FindStringSubmatch], for the pattern of line 23: the
    text is matched from its start to its end as the group [proto], which
    is [pcap] or [file], then [://], then the group [source], any characters
    but newlines.  The result is the whole match and the two groups, or
    nil. *)
Definition FindStringSubmatch (s : string) : option (list string) :=
  match strip_prefix "pcap://" s with
  | Some source =>
      if dot_star_end source then Some [s; "pcap"; source] else None
  | None =>
      match strip_prefix "file://" s with
      | Some source =>
          if dot_star_end source then Some [s; "file"; source] else None
      | None => None
      end
  end.

Definition SubexpNames : list string := [""; "proto"; "source"].

(** Lines 32-41: the groups picked by name. *)
Definition named_groups (srcMatch : list string) : string * string :=
  foldl (fun '(proto, source) '(idx, name) =>
           if String.eqb name "proto" then (default "" (srcMatch !! idx), source)
           else if String.eqb name "source" then (proto, default "" (srcMatch !! idx))
           else (proto, source))
        ("", "") (imap pair SubexpNames).

(** [bytealg.Equal] and [net.IP.Equal]: an IPv4 address equals its
    IPv4-in-IPv6 form. *)
Definition bytealg_Equal (a b : list byte) : bool :=
  bool_decide (Byte.to_N <$> a = Byte.to_N <$> b).

Definition v4InV6Prefix : list byte := replicate 10 x00 ++ [xff; xff].

Definition IP_Equal (ip x : IP) : bool :=
  if decide (length ip = length x) then bytealg_Equal ip x
  else if decide (length ip = 4%nat ∧ length x = 16%nat) then
    bytealg_Equal (take 12 x) v4InV6Prefix && bytealg_Equal ip (drop 12 x)
  else if decide (length ip = 16%nat ∧ length x = 4%nat) then
    bytealg_Equal (take 12 ip) v4InV6Prefix && bytealg_Equal (drop 12 ip) x
  else false.

Record Interface := {
  Name : string;
  Addresses : list IP
}.

(** What a capture handle was opened on. *)
Inductive Handle :=
  | live_handle (device : string)
  | offline_handle (file : string).

Inductive result (A : Type) :=
  | Ok (a : A)
  | Err (e : error).
Arguments Ok {A} a.
Arguments Err {A} e.

(** The operating system and libpcap, as [CreateHandler] calls them. *)
Record system := {
  ResolveIPAddr : string -> result IP;       (* net.ResolveIPAddr("ip", _) *)
  FindAllDevs : result (list Interface);
  OpenLive : string -> option error;         (* the error, if any *)
  OpenOffline : string -> option error
}.

(** The loops labelled [FIND_IFACE] (lines 50-58). *)
Fixpoint FIND_IFACE (ifaceList : list Interface) (ip : IP) (source : string)
    : string :=
  match ifaceList with
  | [] => source
  | iface :: ifaceList =>
      if existsb (fun addr => IP_Equal addr ip) (Addresses iface)
      then Name iface
      else FIND_IFACE ifaceList ip source
  end.

(** Lines 43-59. *)
Definition resolve_source (sys : system) (source : string) : result string :=
  match ResolveIPAddr sys source with
  | Ok ip =>
      match FindAllDevs sys with
      | Err err => Err (errors_WithStack err)
      | Ok ifaceList => Ok (FIND_IFACE ifaceList ip source)
      end
  | Err _ => Ok source
  end.

Definition invalid_data_source (dataSrc : string) : error :=
  errors_New ("invalid data source: " +:+ dataSrc).

Definition unknown_pcap_protocol (proto : string) : error :=
  errors_New ("unknown pcap protocol: " +:+ proto).

Definition CreateHandler (sys : system) (dataSrc : string) : result Handle :=
  match FindStringSubmatch dataSrc with
  | None => Err (invalid_data_source dataSrc)
  | Some srcMatch =>
      let '(proto, source) := named_groups srcMatch in
      match resolve_source sys source with
      | Err err => Err err
      | Ok source =>
          if String.eqb proto "pcap" then
            match OpenLive sys source with
            | Some err => Err (errors_WithStack err)
            | None => Ok (live_handle source)
            end
          else if String.eqb proto "file" then
            match OpenOffline sys source with
            | Some err => Err (errors_WithStack err)
            | None => Ok (offline_handle source)
            end
          else Err (unknown_pcap_protocol proto)
      end
  end.

(** ** Observations on states and packets *)

(** A header lies within an allocated array, over cells already written. *)
Definition fits (h : heap) (s : slice) : Prop :=
  ∃ a data, base s = Some a ∧ h !! a = Some data ∧
            0 ≤ off s ∧ 0 ≤ len s ∧ off s + len s ≤ Z.of_nat (length data).

(** How the loop classifies a packet for which a Consumer is registered;
    the flow identifier [F] is the key of the session table. *)
Inductive kind :=
  | Handshake (F : Z)          (* TCP with SYN and ACK *)
  | Teardown (F : Z)           (* TCP with FIN and ACK, no handshake *)
  | Bare (F : Z)               (* other TCP without payload *)
  | Segment (F : Z) (src dst : option Addr) (payload : list byte)
  | Datagram (F : Z) (src dst : option Addr) (payload : list byte)
  | Unsupported (layer : string)
  | Undecodable.               (* a layer the loop reads is missing *)


Definition stops (ev : event) : bool :=
  match ev with
  | ctx_Done | recv None => true
  | recv (Some _) => false
  end.

Section Observations.

Variable FastHash : Flow -> Z.
Context {CS : Type}.

Definition state_of (c : @control CS) : state :=
  match c with
  | Continue st | Return _ st | Panic _ st => st
  end.

(** The session table as the Consumer can come to see it: the bytes under
    each stored header.  A flow is absent when it has no entry, active
    otherwise. *)
Definition contents (st : @state CS) : gmap Z (list byte) :=
  bytes (mem st) <$> sessionBuffers st.

(** How a pass ends once the Consumer has returned [usedSize] and [err]
    for a buffer of [n] bytes (lines 163-171). *)
Definition ended (n usedSize : Z) (err : option error) (st : @state CS)
    : control :=
  match err with
  | Some e => if is_EOF e then Return None st else Continue st
  | None =>
      if decide (0 ≤ usedSize ≤ n) then Continue st else Panic slice_bounds st
  end.

(** Stored headers lie within their arrays, and no two flows share one. *)
Definition wf (st : @state CS) : Prop :=
  (∀ F s, sessionBuffers st !! F = Some s → fits (mem st) s) ∧
  (∀ F G s t, F ≠ G → sessionBuffers st !! F = Some s →
              sessionBuffers st !! G = Some t → base s ≠ base t).

Definition classify (pkg : Packet) : kind :=
  match Layer_IPv4 pkg with
  | layer_ptr (Some ip) =>
      match NextLayerType ip with
      | LayerTypeTCP =>
          match Layer_TCP pkg with
          | layer_ptr (Some tcp) =>
              let F := FastHash (TCP_TransportFlow tcp) in
              if SYN tcp && ACK tcp then Handshake F
              else if FIN tcp && ACK tcp then Teardown F
              else
                match tcp_Payload tcp with
                | [] => Bare F
                | payload =>
                    Segment F (Some (TCPAddr (SrcIP ip) (tcp_SrcPort tcp)))
                            (Some (TCPAddr (DstIP ip) (tcp_DstPort tcp))) payload
                end
          | _ => Undecodable
          end
      | LayerTypeUDP =>
          match Layer_UDP pkg with
          | layer_ptr (Some udp) =>
              Datagram (FastHash (UDP_TransportFlow udp))
                       (Some (UDPAddr (SrcIP ip) (udp_SrcPort udp)))
                       (Some (UDPAddr (DstIP ip) (udp_DstPort udp)))
                       (udp_Payload udp)
          | _ => Undecodable
          end
      | LayerTypeOther name => Unsupported name
      end
  | _ => Undecodable
  end.

(** The events that leave the entry of flow [F] alone: everything but a
    handshake, a teardown, a segment or a datagram of [F]. *)
Definition quiet (F : Z) (ev : event) : bool :=
  match ev with
  | recv (Some pkg) =>
      match classify pkg with
      | Handshake G | Teardown G | Segment G _ _ _ | Datagram G _ _ _ =>
          bool_decide (G ≠ F)
      | _ => true
      end
  | _ => true
  end.

(** The events that are no handshake of flow [F]. *)
Definition no_handshake (F : Z) (ev : event) : bool :=
  match ev with
  | recv (Some pkg) =>
      match classify pkg with
      | Handshake G => bool_decide (G ≠ F)
      | _ => true
      end
  | _ => true
  end.

End Observations.

(** ** Packets and Consumers of the scenarios *)

Definition text (s : string) : list byte := String.list_byte_of_string s.

Definition ip_header (next : LayerType) : IPv4 :=
  {| SrcIP := [x0a; x00; x00; x01]; DstIP := [x0a; x00; x00; x02];
     NextLayerType := next |}.

Definition tcp_packet (tcp : TCP) : Packet :=
  {| Layer_IPv4 := layer_ptr (Some (ip_header LayerTypeTCP));
     Layer_TCP := layer_ptr (Some tcp);
     Layer_UDP := no_layer |}.

Definition handshake (sport dport : Z) : Packet :=
  tcp_packet {| tcp_SrcPort := sport; tcp_DstPort := dport;
                SYN := true; ACK := true; FIN := false; tcp_Payload := [] |}.

Definition teardown (sport dport : Z) : Packet :=
  tcp_packet {| tcp_SrcPort := sport; tcp_DstPort := dport;
                SYN := false; ACK := true; FIN := true; tcp_Payload := [] |}.

Definition payload (sport dport : Z) (data : string) : Packet :=
  tcp_packet {| tcp_SrcPort := sport; tcp_DstPort := dport;
                SYN := false; ACK := true; FIN := false;
                tcp_Payload := text data |}.

Definition udp_packet (sport dport : Z) (data : string) : Packet :=
  {| Layer_IPv4 := layer_ptr (Some (ip_header LayerTypeUDP));
     Layer_TCP := no_layer;
     Layer_UDP := layer_ptr (Some {| udp_SrcPort := sport; udp_DstPort := dport;
                                      udp_Payload := text data |}) |}.

Definition icmp_packet : Packet :=
  {| Layer_IPv4 := layer_ptr (Some (ip_header (LayerTypeOther "ICMPv4")));
     Layer_TCP := no_layer;
     Layer_UDP := no_layer |}.


(** A commutative hash of the two ports, as [FastHash] is. *)
Definition port_hash (f : Flow) : Z :=
  match flow_typ f with
  | EndpointTCPPort => 2 * (flow_src f + flow_dst f)
  | EndpointUDPPort => 2 * (flow_src f + flow_dst f) + 1
  end.

(** Consumers: one byte per call; one byte on the first call and
    everything afterwards; a failure on the first call and everything
    afterwards; a count one past the end. *)
Definition take_one : @DataHandler unit :=
  fun cs _ _ _ => ((1, None), cs).

Definition one_then_all : @DataHandler nat :=
  fun n _ _ data =>
    match n with
    | O => ((1, None), S n)
    | _ => ((Z.of_nat (length data), None), S n)
    end.


Definition overrun : @DataHandler unit :=
  fun cs _ _ data => ((Z.of_nat (length data) + 1, None), cs).

Definition take_all : @DataHandler unit :=
  fun cs _ _ data => ((Z.of_nat (length data), None), cs).

(** A host with one interface, [eth0], that owns 10.0.0.1; both opens
    succeed. *)
Definition host : system :=
  {| ResolveIPAddr := fun s =>
       if String.eqb s "10.0.0.1" then Ok [x0a; x00; x00; x01]
       else Err (errors_New "no such host");
     FindAllDevs := Ok [ {| Name := "lo"; Addresses := [[x7f; x00; x00; x01]] |};
                         {| Name := "eth0"; Addresses := [[x0a; x00; x00; x01]] |} ];
     OpenLive := fun _ => None;
     OpenOffline := fun _ => None |}.

(** ** The byte stream of a flow *)

(** The bytes a Consumer call took: the first [usedSize] bytes of its
    buffer. *)
Definition consumed_of (c : call) : list byte :=
  take (Z.to_nat (call_used c)) (call_data c).

(** A call that took part of its buffer and left at least one byte. *)
Definition partial (c : call) : bool :=
  match call_err c with
  | None => bool_decide (0 ≤ call_used c < Z.of_nat (length (call_data c)))
  | Some _ => false
  end.

Section Streams.

Variable FastHash : Flow -> Z.

(** The payload an event adds to the stream of flow [F]: that of a segment
    or datagram of [F], nothing for a TCP packet without payload and flags,
    and [None] for every other event. *)
Definition stream_of (F : Z) (ev : event) : option (list byte) :=
  match ev with
  | recv (Some pkg) =>
      match classify FastHash pkg with
      | Segment G _ _ p | Datagram G _ _ p =>
          if decide (G = F) then Some p else None
      | Bare _ => Some []
      | _ => None
      end
  | _ => None
  end.

(** The payloads of a run of such events, concatenated in arrival order. *)
Fixpoint stream (F : Z) (evs : list event) : option (list byte) :=
  match evs with
  | [] => Some []
  | ev :: evs =>
      match stream_of F ev, stream F evs with
      | Some p, Some ps => Some (p ++ ps)
      | _, _ => None
      end
  end.

(** TCP packets that are no handshake. *)
Definition tcp_without_handshake (ev : event) : bool :=
  match ev with
  | recv (Some pkg) =>
      match classify FastHash pkg with
      | Teardown _ | Bare _ | Segment _ _ _ _ => true
      | _ => false
      end
  | _ => false
  end.

(** Packets the loop handles as TCP. *)
Definition is_TCP (pkg : Packet) : bool :=
  match classify FastHash pkg with
  | Handshake _ | Teardown _ | Bare _ | Segment _ _ _ _ => true
  | _ => false
  end.

End Streams.

(** A packet whose IPv4 header announces TCP while no TCP layer was
    decoded, as for a truncated capture. *)
Definition truncated_tcp_packet : Packet :=
  {| Layer_IPv4 := layer_ptr (Some (ip_header LayerTypeTCP));
     Layer_TCP := no_layer;
     Layer_UDP := no_layer |}.

(** A Consumer that ends the stream on its second call. *)
Definition eof_on_second : @DataHandler nat :=
  fun n _ _ data =>
    match n with
    | O => ((1, None), S n)
    | _ => ((0, Some io_EOF), S n)
    end.

(** A host whose interface enumeration fails. *)
Definition host_without_devs : system :=
  {| ResolveIPAddr := ResolveIPAddr host;
     FindAllDevs := Err (errors_New "permission denied");
     OpenLive := fun _ => None;
     OpenOffline := fun _ => None |}.

(** * Proofs *)

(** ** Slices over shared arrays *)

Lemma length_store pos p a :
  length (store pos p a) = Nat.max (length a) (pos + length p)%nat.
Proof.
  unfold store. rewrite !length_app, length_resize, length_drop. lia.
Qed.

Lemma store_below pos p a n i :
  (i + n ≤ pos)%nat → (pos ≤ length a)%nat →
  take n (drop i (store pos p a)) = take n (drop i a).
Proof.
  intros Hp Ha. unfold store.
  rewrite resize_le by lia.
  apply list_eq. intros j.
  rewrite !lookup_take. case_decide; [|done].
  rewrite !lookup_drop, lookup_app_l by (rewrite length_take; lia).
  apply lookup_take_lt. lia.
Qed.

Lemma store_at pos p a i n :
  (i + n = pos)%nat → (pos ≤ length a)%nat →
  take (n + length p) (drop i (store pos p a)) = take n (drop i a) ++ p.
Proof.
  intros Hp Ha. unfold store.
  rewrite resize_le by lia.
  rewrite drop_app_le by (rewrite length_take; lia).
  rewrite take_app_ge by (rewrite length_drop, length_take; lia).
  rewrite length_drop, length_take.
  replace (n + length p - (pos `min` length a - i))%nat with (length p) by lia.
  rewrite take_app_length.
  f_equal. rewrite take_drop_commute. by replace (i + n)%nat with pos by lia.
Qed.

Lemma bytes_fits h s a data :
  base s = Some a → h !! a = Some data →
  0 ≤ len s → off s + len s ≤ Z.of_nat (length data) → 0 ≤ off s → 
  bytes h s = take (Z.to_nat (len s)) (drop (Z.to_nat (off s)) data).
Proof.
  intros Hb Ha ? ? ?. unfold bytes, array_of. rewrite Hb, Ha. simpl.
  apply resize_le. rewrite length_drop. lia.
Qed.

Lemma length_bytes h s : length (bytes h s) = Z.to_nat (len s).
Proof. unfold bytes. apply length_resize. Qed.

Lemma fits_lt h s a : fits h s → base s = Some a → (a < length h)%nat.
Proof.
  intros (a' & data & Hb & Ha & _) Hb'. rewrite Hb' in Hb. injection Hb as <-.
  eapply lookup_lt_Some, Ha.
Qed.

(** A header keeps its bytes when an array is allocated. *)
Lemma fits_alloc h s d : fits h s → fits (h ++ [d]) s ∧ bytes (h ++ [d]) s = bytes h s.
Proof.
  intros (a & data & Hb & Ha & H). split.
  - exists a, data. split; [done|]. split; [|done]. by apply lookup_app_l_Some.
  - unfold bytes, array_of. rewrite Hb. by rewrite (lookup_app_l_Some _ _ _ _ Ha), Ha.
Qed.

(** A header keeps its bytes when bytes are written after its last cell, or
    into another array. *)
Lemma fits_store h t a pos p data :
  fits h t → h !! a = Some data → (pos ≤ length data)%nat →
  (base t ≠ Some a ∨ off t + len t ≤ Z.of_nat pos) →
  fits (alter (store pos p) a h) t ∧ bytes (alter (store pos p) a h) t = bytes h t.
Proof.
  intros (b & d & Hb & Hd & H0 & H1 & H2) Ha Hpos Hor.
  destruct (decide (b = a)) as [->|Hne].
  - assert (d = data) as -> by congruence.
    destruct Hor as [|Hle]; [congruence|].
    assert (alter (store pos p) a h !! a = Some (store pos p data)) as Hl.
    { by rewrite list_lookup_alter_eq, Ha. }
    split.
    + exists a, (store pos p data). repeat split; try done.
      rewrite length_store. lia.
    + rewrite (bytes_fits _ _ _ _ Hb Hl), (bytes_fits _ _ _ _ Hb Ha); try lia.
      * apply store_below; lia.
      * rewrite length_store. lia.
  - assert (alter (store pos p) a h !! b = Some d) as Hl.
    { rewrite list_lookup_alter_ne by done. done. }
    split.
    + exists b, d. done.
    + unfold bytes, array_of. by rewrite Hb, Hl, Hd.
Qed.

Lemma append_spec h s p h' s' :
  fits h s → append h s p = (h', s') →
  fits h' s' ∧ bytes h' s' = bytes h s ++ p ∧
  len s' = len s + Z.of_nat (length p) ∧
  (base s' = base s ∧ off s' = off s ∨ base s' = Some (length h)) ∧
  ∀ t, fits h t → (base t ≠ base s ∨ off t + len t ≤ off s + len s) →
       fits h' t ∧ bytes h' t = bytes h t.
Proof.
  intros Hs Happ. pose proof Hs as (a & data & Hb & Ha & H0 & H1 & H2).
  unfold append in Happ. case_decide.
  - rewrite Hb in Happ. injection Happ as <- <-. simpl.
    assert (alter (store (Z.to_nat (off s + len s)) p) a h !! a
            = Some (store (Z.to_nat (off s + len s)) p data)) as Hl.
    { by rewrite list_lookup_alter_eq, Ha. }
    split; [|split; [|split; [done|split; [by left|]]]].
    + exists a, (store (Z.to_nat (off s + len s)) p data). simpl.
      repeat split; try done; try lia. rewrite length_store. lia.
    + erewrite (bytes_fits _ (Slice _ _ _ _)); [|done|exact Hl|simpl..]; try lia.
      2:{ rewrite length_store. lia. }
      erewrite (bytes_fits _ s); [|done|exact Ha|..]; try lia. simpl.
      replace (Z.to_nat (len s + Z.of_nat (length p)))
        with (Z.to_nat (len s) + length p)%nat by lia.
      apply store_at; lia.
    + intros t Ht Hor. apply (fits_store h t a _ p data); try done; [lia|].
      rewrite Hb in Hor. destruct Hor; [by left|right; lia].
  - injection Happ as <- <-. simpl.
    split; [|split; [|split; [done|split; [by right|]]]].
    + exists (length h), (bytes h s ++ p). simpl. repeat split; try lia.
      * by apply list_lookup_middle.
      * rewrite length_app, length_bytes. lia.
    + unfold bytes at 1, array_of. simpl. rewrite list_lookup_middle by done. simpl.
      rewrite drop_0. apply resize_all_alt. rewrite length_app, length_bytes. lia.
    + intros t Ht _. by apply fits_alloc.
Qed.

Lemma slice_from_spec h s k r :
  fits h s → slice_from s k = Some r →
  fits h r ∧ bytes h r = drop (Z.to_nat k) (bytes h s) ∧ base r = base s ∧
  off r + len r = off s + len s ∧ 0 ≤ k ≤ len s.
Proof.
  intros (a & data & Hb & Ha & H0 & H1 & H2) Hk. unfold slice_from in Hk.
  case_decide; [|done]. injection Hk as <-. simpl.
  split; [|split; [|repeat split; lia]].
  - exists a, data. simpl. repeat split; try done; lia.
  - erewrite (bytes_fits _ (Slice _ _ _ _)); [|done|exact Ha|simpl..]; try lia.
    erewrite (bytes_fits _ s); [|done|exact Ha|..]; try lia. simpl.
    replace (Z.to_nat (len s)) with (Z.to_nat k + Z.to_nat (len s - k))%nat by lia.
    rewrite <- take_drop_commute, drop_drop.
    by replace (Z.to_nat (off s + k)) with (Z.to_nat (off s) + Z.to_nat k)%nat by lia.
Qed.

(** ** The loop body, packet kind by packet kind *)

Section Steps.

Variable FastHash : Flow -> Z.
Context {CS : Type}.
Variable fn : @DataHandler CS.


Implicit Types (st : @state CS) (pkg : Packet) (F G k : Z).

Ltac unfold_step :=
  unfold iteration, switch, case_TCP, case_UDP, make,
         assert_type, assert_type_ok.

Ltac by_kind H :=
  unfold classify in H; unfold_step;
  repeat case_match; simplify_eq/=; try done; try lia;
  try match goal with E : append _ _ _ = _ |- _ => by rewrite E end.

Lemma iteration_handshake st pkg F :
  classify FastHash pkg = Handshake F →
  iteration FastHash (Some fn) st pkg =
  Continue (with_buffers (with_mem st (mem st ++ [[]]))
              (<[F := Slice (Some (length (mem st))) 0 0 defaultTCPBufferLen]>
                 (sessionBuffers st))).
Proof. intros H. by_kind H. Qed.

Lemma iteration_teardown st pkg F :
  classify FastHash pkg = Teardown F →
  iteration FastHash (Some fn) st pkg =
  Continue (with_buffers st (delete F (sessionBuffers st))).
Proof. intros H. by_kind H. Qed.

Lemma iteration_bare st pkg F :
  classify FastHash pkg = Bare F → iteration FastHash (Some fn) st pkg = Continue st.
Proof. intros H. by_kind H. Qed.

Lemma iteration_segment st pkg F src dst p :
  classify FastHash pkg = Segment F src dst p →
  iteration FastHash (Some fn) st pkg =
  match sessionBuffers st !! F with
  | None => Continue st
  | Some s =>
      consume fn (with_mem st (append (mem st) s p).1) src dst F
              (append (mem st) s p).2
  end.
Proof. intros H. by_kind H. Qed.

Lemma iteration_datagram st pkg F src dst p :
  classify FastHash pkg = Datagram F src dst p →
  iteration FastHash (Some fn) st pkg =
  match sessionBuffers st !! F with
  | None => consume fn st src dst F nil_slice
  | Some s =>
      consume fn (with_mem st (append (mem st) s p).1) src dst F
              (append (mem st) s p).2
  end.
Proof. intros H. by_kind H. Qed.

Lemma iteration_unsupported st pkg name :
  classify FastHash pkg = Unsupported name →
  iteration FastHash (Some fn) st pkg =
  consume fn (with_log st (log_unsupported name)) None None 0 nil_slice.
Proof. intros H. by_kind H. Qed.

Lemma iteration_undecodable st pkg :
  classify FastHash pkg = Undecodable →
  state_of (iteration FastHash (Some fn) st pkg) = st ∧
  ∀ st', iteration FastHash (Some fn) st pkg ≠ Continue st'.
Proof. intros H. by_kind H. Qed.


Lemma consume_eq st src dst F buffer k err cs' :
  fn (handlerState st) src dst (bytes (mem st) buffer) = ((k, err), cs') →
  consume fn st src dst F buffer =
  let st1 := with_call st (Call src dst (bytes (mem st) buffer) k err) cs' in
  match err with
  | Some e =>
      if is_EOF e then Return None st1
      else Continue (with_log st1 (log_handler_failed src dst e))
  | None =>
      if decide (k = len buffer) then Continue st1
      else if decide (0 ≤ k ≤ len buffer) then
        Continue (with_buffers st1
                    (<[F := Slice (base buffer) (off buffer + k)
                                  (len buffer - k) (cap buffer - k)]>
                       (sessionBuffers st)))
      else Panic slice_bounds st1
  end.
Proof.
  intros E. unfold consume. rewrite E. simpl. destruct err as [e|]; [done|].
  unfold slice_from. repeat case_decide; simpl; try done; congruence.
Qed.

Lemma wf_initial (cs : CS) : wf (initial cs).
Proof. split; intros *; simpl; by rewrite ?lookup_empty. Qed.

Lemma contents_lookup st F :
  contents st !! F = bytes (mem st) <$> sessionBuffers st !! F.
Proof. apply lookup_fmap. Qed.

(** Allocation and writes past the stored headers leave the table's
    contents alone. *)
Lemma with_mem_frame st h :
  wf st →
  (∀ F s, sessionBuffers st !! F = Some s → fits h s ∧ bytes h s = bytes (mem st) s) →
  wf (with_mem st h) ∧ contents (with_mem st h) = contents st.
Proof.
  intros [Hfit Hsh] Hh. split; [split|].
  - intros F s Hs. by apply (Hh F s).
  - exact Hsh.
  - apply map_eq. intros F. rewrite !contents_lookup. simpl.
    destruct (sessionBuffers st !! F) as [s|] eqn:Hs; [|done]. simpl.
    f_equal. by apply (Hh F s).
Qed.

Lemma consume_owned st src dst F buffer k err cs' :
  wf st → fits (mem st) buffer →
  (∀ G t, G ≠ F → sessionBuffers st !! G = Some t → base t ≠ base buffer) →
  fn (handlerState st) src dst (bytes (mem st) buffer) = ((k, err), cs') →
  let c := consume fn st src dst F buffer in
  wf (state_of c) ∧
  (err = None → 0 ≤ k < len buffer →
   contents (state_of c)
   = <[F := drop (Z.to_nat k) (bytes (mem st) buffer)]> (contents st)) ∧
  (¬ (err = None ∧ 0 ≤ k < len buffer) →
   sessionBuffers (state_of c) = sessionBuffers st ∧
   contents (state_of c) = contents st).
Proof.
  intros Hwf Hfit Hown E c. subst c. rewrite (consume_eq _ _ _ _ _ _ _ _ E). simpl.
  destruct err as [e|].
  { split; [|split]; [|done|]; by destruct (is_EOF e). }
  case_decide as Hk; [split; [|split]; [done|intros; lia|done]|].
  case_decide as Hr; [|split; [|split]; [done|intros; lia|done]].
  assert (slice_from buffer k = Some (Slice (base buffer) (off buffer + k)
            (len buffer - k) (cap buffer - k))) as Hsl.
  { unfold slice_from. by rewrite decide_True. }
  destruct (slice_from_spec _ _ _ _ Hfit Hsl) as (Hfr & Hbr & _).
  destruct Hwf as [Hf Hsh].
  split; [split|split].
  - simpl. intros G s. rewrite lookup_insert. case_decide; [|apply Hf].
    by intros [= <-].
  - simpl. intros G H s t Hne. rewrite !lookup_insert.
    repeat case_decide; simplify_eq; intros; simplify_eq/=.
    + intros Heq. by eapply (Hown H t).
    + eapply Hown; [|eassumption]. congruence.
    + eapply Hsh; [|eassumption|eassumption]. done.
  - intros _ _. unfold contents. simpl. rewrite fmap_insert. by rewrite Hbr.
  - intros Hn. exfalso. apply Hn. split; [done|lia].
Qed.


Lemma consume_calls st src dst F buffer k err cs' :
  0 ≤ len buffer →
  fn (handlerState st) src dst (bytes (mem st) buffer) = ((k, err), cs') →
  let c := consume fn st src dst F buffer in
  calls (state_of c) = calls st ++ [Call src dst (bytes (mem st) buffer) k err] ∧
  handlerState (state_of c) = cs' ∧
  mem (state_of c) = mem st ∧
  c = ended (len buffer) k err (state_of c).
Proof.
  intros Hlen E c. subst c. rewrite (consume_eq _ _ _ _ _ _ _ _ E).
  unfold ended. simpl.
  destruct err as [e|]; [by destruct (is_EOF e)|].
  repeat case_decide; simpl; try done; lia.
Qed.

Lemma wf_same st st' :
  sessionBuffers st' = sessionBuffers st → mem st' = mem st →
  wf st → wf st' ∧ contents st' = contents st.
Proof.
  intros Hb Hm Hwf. unfold wf, contents. by rewrite Hb, Hm.
Qed.

(** The Consumer call on a nil buffer never changes the table. *)
Lemma consume_nil st src dst F k err cs' :
  fn (handlerState st) src dst [] = ((k, err), cs') →
  let c := consume fn st src dst F nil_slice in
  sessionBuffers (state_of c) = sessionBuffers st ∧
  mem (state_of c) = mem st ∧
  calls (state_of c) = calls st ++ [Call src dst [] k err] ∧
  c = ended 0 k err (state_of c).
Proof.
  intros E c. subst c.
  change [] with (bytes (mem st) nil_slice) in E.
  rewrite (consume_eq _ _ _ _ _ _ _ _ E). unfold ended. simpl.
  destruct err as [e|]; [by destruct (is_EOF e)|].
  repeat case_decide; simpl; try done; lia.
Qed.

(** Appending to the stored header of flow [F]: the table's contents stay,
    the new header reads the stored bytes followed by the payload, and no
    other flow's header is on its array. *)
Lemma append_stored st F s p :
  wf st → sessionBuffers st !! F = Some s →
  let st1 := with_mem st (append (mem st) s p).1 in
  let buffer := (append (mem st) s p).2 in
  wf st1 ∧ contents st1 = contents st ∧ fits (mem st1) buffer ∧
  bytes (mem st1) buffer = bytes (mem st) s ++ p ∧
  len buffer = len s + Z.of_nat (length p) ∧
  (∀ G t, G ≠ F → sessionBuffers st1 !! G = Some t → base t ≠ base buffer).
Proof.
  intros Hwf Hs st1 buffer. pose proof Hwf as [Hf Hsh].
  destruct (append (mem st) s p) as [h' s'] eqn:E. subst st1 buffer. simpl.
  destruct (append_spec _ _ _ _ _ (Hf _ _ Hs) E) as (Hfit & Hb & Hl & Hbase & Hfr).
  assert (∀ G t, sessionBuffers st !! G = Some t →
                 fits h' t ∧ bytes h' t = bytes (mem st) t) as Hall.
  { intros G t Ht. apply Hfr; [by eapply Hf|].
    destruct (decide (G = F)) as [->|Hne].
    - right. assert (t = s) as -> by congruence. lia.
    - left. by eapply Hsh. }
  destruct (with_mem_frame st h' Hwf Hall) as [Hwf1 Hc1].
  do 5 (split; [done|]).
  intros G t Hne Ht Heq. destruct Hbase as [[Hbase _]|Hbase].
  - eapply (Hsh G F t s); [done..|congruence].
  - assert (length (mem st) < length (mem st))%nat; [|lia].
    apply (fits_lt _ t); [by eapply Hf|congruence].
Qed.


(** A segment or datagram of an active flow: the Consumer sees the stored
    bytes followed by the payload, and only a partial consumption changes
    the table. *)
Lemma step_active st pkg F src dst p b k err cs' :
  wf st → contents st !! F = Some b →
  classify FastHash pkg = Segment F src dst p ∨ classify FastHash pkg = Datagram F src dst p →
  fn (handlerState st) src dst (b ++ p) = ((k, err), cs') →
  let c := iteration FastHash (Some fn) st pkg in
  wf (state_of c) ∧
  calls (state_of c) = calls st ++ [Call src dst (b ++ p) k err] ∧
  handlerState (state_of c) = cs' ∧
  (err = None → 0 ≤ k < Z.of_nat (length (b ++ p)) →
   contents (state_of c) = <[F := drop (Z.to_nat k) (b ++ p)]> (contents st)) ∧
  (¬ (err = None ∧ 0 ≤ k < Z.of_nat (length (b ++ p))) →
   sessionBuffers (state_of c) = sessionBuffers st ∧
   contents (state_of c) = contents st) ∧
  c = ended (Z.of_nat (length (b ++ p))) k err (state_of c).
Proof.
  intros Hwf Hb Hkind E c.
  rewrite contents_lookup in Hb.
  destruct (sessionBuffers st !! F) as [s|] eqn:Hs; [|done].
  injection Hb as <-.
  assert (c = consume fn (with_mem st (append (mem st) s p).1) src dst F
                      (append (mem st) s p).2) as ->.
  { subst c. destruct Hkind as [H|H].
    - by rewrite (iteration_segment _ _ _ _ _ _ H), Hs.
    - by rewrite (iteration_datagram _ _ _ _ _ _ H), Hs. }
  destruct (append_stored st F s p Hwf Hs) as (Hwf1 & Hc1 & Hfit & Hby & Hlen & Hown).
  set (st1 := with_mem st (append (mem st) s p).1) in *.
  set (buffer := (append (mem st) s p).2) in *.
  assert (Z.of_nat (length (bytes (mem st) s ++ p)) = len buffer) as Hl.
  { rewrite <- Hby, length_bytes. destruct Hfit as (? & ? & ? & ? & ? & ? & ?). lia. }
  rewrite Hl. rewrite <- Hby in E |- *.
  change (handlerState st) with (handlerState st1) in E.
  destruct (consume_owned st1 src dst F buffer k err cs' Hwf1 Hfit Hown E)
    as (Hw & Hpart & Hrest).
  destruct (consume_calls st1 src dst F buffer k err cs' ltac:(lia) E)
    as (Hcalls & Hcs & _ & Hc).
  split; [done|]. split; [done|]. split; [done|].
  split; [|split; [|done]].
  - intros He Hk. by rewrite (Hpart He Hk), Hc1.
  - intros Hn. destruct (Hrest Hn) as [H1 H2]. by rewrite H1, H2, Hc1.
Qed.

Lemma bytes_empty h a c : bytes h (Slice a 0 0 c) = [].
Proof. apply resize_0. Qed.

Lemma step_handshake st pkg F :
  wf st → classify FastHash pkg = Handshake F →
  ∃ st', iteration FastHash (Some fn) st pkg = Continue st' ∧ wf st' ∧
         contents st' = <[F := []]> (contents st) ∧
         calls st' = calls st ∧ handlerState st' = handlerState st.
Proof.
  intros Hwf H. eexists. split; [by apply iteration_handshake|].
  pose proof Hwf as [Hf Hsh].
  assert (∀ G t, sessionBuffers st !! G = Some t →
                 fits (mem st ++ [[]]) t ∧ bytes (mem st ++ [[]]) t = bytes (mem st) t)
    as Hall by (intros G t Ht; apply fits_alloc; by eapply Hf).
  destruct (with_mem_frame st _ Hwf Hall) as [[Hf1 Hsh1] Hc1].
  split; [split|split; [|done]].
  - simpl. intros G s. rewrite lookup_insert. case_decide; [|by apply Hf1].
    intros [= <-]. exists (length (mem st)), []. simpl.
    split; [done|]. split; [by apply list_lookup_middle|lia].
  - simpl. intros G H' s t Hne. rewrite !lookup_insert.
    repeat case_decide; simplify_eq; intros; simplify_eq/=.
    + intros Heq. assert (length (mem st) < length (mem st))%nat; [|lia].
      apply (fits_lt _ t); [by eapply Hf|done].
    + intros Heq. assert (length (mem st) < length (mem st))%nat; [|lia].
      apply (fits_lt _ s); [by eapply Hf|done].
    + eapply Hsh; [|eassumption|eassumption]. done.
  - unfold contents in *. simpl in *. by rewrite fmap_insert, Hc1, bytes_empty.
Qed.

Lemma step_teardown st pkg F :
  wf st → classify FastHash pkg = Teardown F →
  ∃ st', iteration FastHash (Some fn) st pkg = Continue st' ∧ wf st' ∧
         contents st' = delete F (contents st) ∧
         calls st' = calls st ∧ handlerState st' = handlerState st.
Proof.
  intros [Hf Hsh] H. eexists. split; [by apply iteration_teardown|].
  split; [split|split; [|done]]; simpl.
  - intros G s [_ Hs]%lookup_delete_Some. by eapply Hf.
  - intros G H' s t Hne [_ Hs]%lookup_delete_Some [_ Ht]%lookup_delete_Some.
    by eapply Hsh.
  - unfold contents. simpl. by rewrite fmap_delete.
Qed.

End Steps.

Section Loops.

Variable FastHash : Flow -> Z.
Context {CS : Type}.


Implicit Types (st : @state CS) (pkg : Packet) (F G k : Z)
  (fn : option (@DataHandler CS)).

(** A packet that is quiet for flow [F] leaves the entry of [F] alone. *)
Lemma step_quiet fn st pkg F :
  wf st → quiet FastHash F (recv (Some pkg)) = true →
  wf (state_of (iteration FastHash fn st pkg)) ∧
  contents (state_of (iteration FastHash fn st pkg)) !! F = contents st !! F.
Proof.
  intros Hwf Hq. destruct fn as [fn|]; [|done]. simpl in Hq.
  destruct (classify FastHash pkg) as [G|G|G|G src dst p|G src dst p|name|] eqn:Hk.
  - destruct (step_handshake FastHash fn st pkg G Hwf Hk) as (st' & -> & Hw & Hc & _).
    simpl. split; [done|]. rewrite Hc. apply lookup_insert_ne.
    by apply bool_decide_eq_true in Hq.
  - destruct (step_teardown FastHash fn st pkg G Hwf Hk) as (st' & -> & Hw & Hc & _).
    simpl. split; [done|]. rewrite Hc. apply lookup_delete_ne.
    by apply bool_decide_eq_true in Hq.
  - by rewrite (iteration_bare FastHash fn st pkg G Hk).
  - apply bool_decide_eq_true in Hq.
    destruct (contents st !! G) as [b|] eqn:Hb.
    + destruct (fn (handlerState st) src dst (b ++ p)) as [[k err] cs'] eqn:E.
      destruct (step_active FastHash fn st pkg G src dst p b k err cs' Hwf Hb
                  (or_introl Hk) E) as (Hw & _ & _ & Hpart & Hrest & _).
      split; [done|].
      destruct (decide (err = None ∧ 0 ≤ k < Z.of_nat (length (b ++ p)))) as [[He Hr]|Hn].
      * rewrite (Hpart He Hr). by apply lookup_insert_ne.
      * by rewrite (proj2 (Hrest Hn)).
    + rewrite (iteration_segment FastHash fn st pkg G src dst p Hk).
      rewrite contents_lookup in Hb.
      by destruct (sessionBuffers st !! G).
  - apply bool_decide_eq_true in Hq.
    destruct (contents st !! G) as [b|] eqn:Hb.
    + destruct (fn (handlerState st) src dst (b ++ p)) as [[k err] cs'] eqn:E.
      destruct (step_active FastHash fn st pkg G src dst p b k err cs' Hwf Hb
                  (or_intror Hk) E) as (Hw & _ & _ & Hpart & Hrest & _).
      split; [done|].
      destruct (decide (err = None ∧ 0 ≤ k < Z.of_nat (length (b ++ p)))) as [[He Hr]|Hn].
      * rewrite (Hpart He Hr). by apply lookup_insert_ne.
      * by rewrite (proj2 (Hrest Hn)).
    + rewrite (iteration_datagram FastHash fn st pkg G src dst p Hk).
      rewrite contents_lookup in Hb.
      destruct (sessionBuffers st !! G); [done|].
      destruct (fn (handlerState st) src dst []) as [[k err] cs'] eqn:E.
      destruct (consume_nil fn st src dst G k err cs' E) as (H1 & H2 & _).
      destruct (wf_same _ _ H1 H2 Hwf) as [Hw Hc]. by rewrite Hc.
  - rewrite (iteration_unsupported FastHash fn st pkg name Hk).
    destruct (fn (handlerState st) None None []) as [[k err] cs'] eqn:E.
    destruct (consume_nil fn (with_log st (log_unsupported name)) None None 0
                k err cs' E) as (H1 & H2 & _).
    destruct (wf_same st _ H1 H2 Hwf) as [Hw Hc]. by rewrite Hc.
  - destruct (iteration_undecodable FastHash fn st pkg Hk) as [-> _]. done.
Qed.


Lemma quiet_elsewhere pkg : ∃ F, quiet FastHash F (recv (Some pkg)) = true.
Proof.
  simpl. destruct (classify FastHash pkg) as [G|G|G|G ? ? ?|G ? ? ?| |];
    try (by exists 0); exists (G + 1); apply bool_decide_eq_true; lia.
Qed.

Lemma step_wf fn st pkg : wf st → wf (state_of (iteration FastHash fn st pkg)).
Proof.
  intros Hwf. destruct (quiet_elsewhere pkg) as [F HF].
  by apply (step_quiet fn st pkg F).
Qed.

Lemma loop_wf fn evs : ∀ st, wf st → wf (state_of (loop FastHash fn st evs)).
Proof.
  induction evs as [|[|[pkg|]] evs IH]; intros st Hwf; simpl; try done.
  pose proof (step_wf fn st pkg Hwf) as Hw.
  destruct (iteration FastHash fn st pkg); simpl in *; auto.
Qed.

Lemma reachable_wf fn cs evs st :
  loop FastHash fn (initial cs) evs = Continue st → wf st.
Proof.
  intros H. change st with (state_of (Continue st)). rewrite <- H.
  apply loop_wf, wf_initial.
Qed.

Lemma loop_quiet fn F evs :
  ∀ st, wf st → forallb (quiet FastHash F) evs = true →
        contents (state_of (loop FastHash fn st evs)) !! F = contents st !! F.
Proof.
  induction evs as [|ev evs IH]; intros st Hwf Hq; [done|].
  simpl in Hq. apply andb_true_iff in Hq as [Hq Hqs].
  destruct ev as [|[pkg|]]; try done.
  destruct (step_quiet fn st pkg F Hwf Hq) as [Hw Hc].
  simpl. destruct (iteration FastHash fn st pkg) as [st'| |]; simpl in *; try done.
  by rewrite IH.
Qed.

(** The bytes stored for an active flow come first in the buffer of the
    flow's next segment or datagram, whatever quiet events lie between. *)
Lemma next_payload (f : @DataHandler CS) st F r evs st' pkg src dst p :
  wf st → contents st !! F = Some r →
  forallb (quiet FastHash F) evs = true →
  loop FastHash (Some f) st evs = Continue st' →
  classify FastHash pkg = Segment F src dst p ∨ classify FastHash pkg = Datagram F src dst p →
  ∃ k err, calls (state_of (iteration FastHash (Some f) st' pkg))
           = calls st' ++ [Call src dst (r ++ p) k err].
Proof.
  intros Hwf Hr Hq Hloop Hk.
  pose proof (loop_wf (Some f) evs st Hwf) as Hw.
  pose proof (loop_quiet (Some f) F evs st Hwf Hq) as Hc.
  rewrite Hloop in Hw, Hc. simpl in Hw, Hc. rewrite Hr in Hc.
  destruct (f (handlerState st') src dst (r ++ p)) as [[k err] cs'] eqn:E.
  exists k, err.
  by destruct (step_active FastHash f st' pkg F src dst p r k err cs' Hw Hc Hk E)
    as (_ & ? & _).
Qed.

End Loops.

(** ** The loop body, from the Consumer's side *)

Section Calls.

Variable FastHash : Flow -> Z.
Context {CS : Type}.

Implicit Types (st : @state CS) (pkg : Packet) (F G k : Z)
  (fn : @DataHandler CS).

Lemma no_new_call (l : list call) c0 : l = l ++ [c0] → False.
Proof. intros H. apply (f_equal length) in H. rewrite length_app in H. simpl in H. lia. Qed.

Lemma same_call (l : list call) c0 c1 : l ++ [c0] = l ++ [c1] → c0 = c1.
Proof. intros H. apply app_inv_head in H. by injection H. Qed.

(** When a pass through the loop body invokes the Consumer, the result of
    the call decides how the pass ends, and the table changes only on a
    partial consumption. *)
Lemma step_call fn st pkg c0 :
  wf st →
  calls (state_of (iteration FastHash (Some fn) st pkg)) = calls st ++ [c0] →
  let c := iteration FastHash (Some fn) st pkg in
  c = ended (Z.of_nat (length (call_data c0))) (call_used c0) (call_err c0)
            (state_of c) ∧
  (¬ (call_err c0 = None ∧ 0 ≤ call_used c0 < Z.of_nat (length (call_data c0))) →
   sessionBuffers (state_of c) = sessionBuffers st ∧
   contents (state_of c) = contents st).
Proof.
  intros Hwf Hcalls c.
  assert (∀ src dst F p b,
    classify FastHash pkg = Segment F src dst p ∨
    classify FastHash pkg = Datagram F src dst p →
    contents st !! F = Some b → ∃ k err, c0 = Call src dst (b ++ p) k err ∧
    c = ended (Z.of_nat (length (b ++ p))) k err (state_of c) ∧
    (¬ (err = None ∧ 0 ≤ k < Z.of_nat (length (b ++ p))) →
     sessionBuffers (state_of c) = sessionBuffers st ∧
     contents (state_of c) = contents st)) as Hactive.
  { intros src dst F p b Hk Hb.
    destruct (fn (handlerState st) src dst (b ++ p)) as [[k err] cs'] eqn:E.
    destruct (step_active FastHash fn st pkg F src dst p b k err cs' Hwf Hb Hk E)
      as (_ & Hc & _ & _ & Hrest & Hres).
    fold c in Hc, Hcalls, Hrest, Hres.
    rewrite Hc in Hcalls. apply same_call in Hcalls. by exists k, err. }
  assert (∀ st0 src dst F,
    sessionBuffers st0 = sessionBuffers st → mem st0 = mem st →
    calls st0 = calls st →
    c = consume fn st0 src dst F nil_slice → ∃ k err, c0 = Call src dst [] k err ∧
    c = ended 0 k err (state_of c) ∧
    sessionBuffers (state_of c) = sessionBuffers st ∧
    contents (state_of c) = contents st) as Hnil.
  { intros st0 src dst F Hb0 Hm0 Hc0 Hit.
    destruct (fn (handlerState st0) src dst []) as [[k err] cs'] eqn:E.
    destruct (consume_nil fn st0 src dst F k err cs' E) as (H1 & H2 & H3 & H4).
    rewrite <- Hit in H1, H2, H3, H4. fold c in Hcalls.
    rewrite H3, Hc0 in Hcalls. apply same_call in Hcalls.
    exists k, err. split; [done|]. split; [done|].
    rewrite Hb0 in H1. rewrite Hm0 in H2.
    by destruct (wf_same st _ H1 H2 Hwf). }
  destruct (classify FastHash pkg) as [G|G|G|G src dst p|G src dst p|name|] eqn:Hk.
  - unfold c in Hcalls.
    rewrite (iteration_handshake FastHash fn st pkg G Hk) in Hcalls.
    by apply no_new_call in Hcalls.
  - unfold c in Hcalls.
    rewrite (iteration_teardown FastHash fn st pkg G Hk) in Hcalls.
    by apply no_new_call in Hcalls.
  - unfold c in Hcalls.
    rewrite (iteration_bare FastHash fn st pkg G Hk) in Hcalls.
    by apply no_new_call in Hcalls.
  - destruct (contents st !! G) as [b|] eqn:Hb.
    + destruct (Hactive src dst G p b (or_introl eq_refl) Hb)
        as (k & err & -> & Hres & Hrest). done.
    + unfold c in Hcalls.
      rewrite (iteration_segment FastHash fn st pkg G src dst p Hk) in Hcalls.
      rewrite contents_lookup in Hb.
      destruct (sessionBuffers st !! G); [done|]. by apply no_new_call in Hcalls.
  - destruct (contents st !! G) as [b|] eqn:Hb.
    + destruct (Hactive src dst G p b (or_intror eq_refl) Hb)
        as (k & err & -> & Hres & Hrest). done.
    + destruct (Hnil st src dst G) as (k & err & -> & Hres & Hrest); try done.
      unfold c. rewrite (iteration_datagram FastHash fn st pkg G src dst p Hk).
      rewrite contents_lookup in Hb. by destruct (sessionBuffers st !! G).
  - destruct (Hnil (with_log st (log_unsupported name)) None None 0)
      as (k & err & -> & Hres & Hrest); try done.
    by apply iteration_unsupported.
  - destruct (iteration_undecodable FastHash fn st pkg Hk) as [Hst _].
    unfold c in Hcalls. rewrite Hst in Hcalls. by apply no_new_call in Hcalls.
Qed.

End Calls.

(** ** The session table across the loop *)

Section Absent.

Variable FastHash : Flow -> Z.
Context {CS : Type}.

Implicit Types (st : @state CS) (pkg : Packet) (F G k : Z).

Lemma consume_absent (fn : @DataHandler CS) st src dst F G buffer :
  sessionBuffers st !! F = None → G ≠ F ∨ buffer = nil_slice →
  sessionBuffers (state_of (consume fn st src dst G buffer)) !! F = None.
Proof.
  intros HF [Hne| ->].
  - destruct (fn (handlerState st) src dst (bytes (mem st) buffer))
      as [[k err] cs'] eqn:E.
    rewrite (consume_eq fn _ _ _ _ _ _ _ _ E). simpl.
    destruct err as [e|]; [by destruct (is_EOF e)|].
    repeat case_decide; simpl; try done. by rewrite lookup_insert_ne.
  - destruct (fn (handlerState st) src dst []) as [[k err] cs'] eqn:E.
    destruct (consume_nil fn st src dst G k err cs' E) as (-> & _). done.
Qed.

(** Only a handshake of flow [F] creates the entry of [F]. *)
Lemma step_absent (fn : option (@DataHandler CS)) st pkg F :
  sessionBuffers st !! F = None →
  no_handshake FastHash F (recv (Some pkg)) = true →
  sessionBuffers (state_of (iteration FastHash fn st pkg)) !! F = None.
Proof.
  intros HF Hq. destruct fn as [fn|]; [|done]. simpl in Hq.
  destruct (classify FastHash pkg) as [G|G|G|G src dst p|G src dst p|name|] eqn:Hk.
  - rewrite (iteration_handshake FastHash fn st pkg G Hk). simpl.
    apply bool_decide_eq_true in Hq. by rewrite lookup_insert_ne.
  - rewrite (iteration_teardown FastHash fn st pkg G Hk). simpl.
    by apply lookup_delete_None; right.
  - by rewrite (iteration_bare FastHash fn st pkg G Hk).
  - rewrite (iteration_segment FastHash fn st pkg G src dst p Hk).
    destruct (sessionBuffers st !! G) eqn:HG; [|done].
    apply consume_absent; [done|]. left. congruence.
  - rewrite (iteration_datagram FastHash fn st pkg G src dst p Hk).
    destruct (sessionBuffers st !! G) eqn:HG.
    + apply consume_absent; [done|]. left. congruence.
    + apply consume_absent; [done|]. by right.
  - rewrite (iteration_unsupported FastHash fn st pkg name Hk).
    apply consume_absent; [done|]. by right.
  - by destruct (iteration_undecodable FastHash fn st pkg Hk) as [-> _].
Qed.

Lemma loop_cons (fn : option (@DataHandler CS)) st pkg evs :
  loop FastHash fn st (recv (Some pkg) :: evs)
  = match iteration FastHash fn st pkg with
    | Continue st' => loop FastHash fn st' evs
    | stop => stop
    end.
Proof. reflexivity. Qed.

Lemma loop_absent (fn : option (@DataHandler CS)) F evs :
  ∀ st, sessionBuffers st !! F = None →
        forallb (no_handshake FastHash F) evs = true →
        sessionBuffers (state_of (loop FastHash fn st evs)) !! F = None.
Proof.
  induction evs as [|ev evs IH]; intros st HF Hq; [done|].
  simpl in Hq. apply andb_true_iff in Hq as [Hq Hqs].
  destruct ev as [|[pkg|]]; try done.
  pose proof (step_absent fn st pkg F HF Hq) as Hs.
  simpl. destruct (iteration FastHash fn st pkg) as [st'| |]; simpl in *; try done.
  by apply IH.
Qed.

End Absent.

(** * The claims *)

(** C10: with no Consumer registered the loop skips every packet before
    looking at it: whatever the events, the state (session table included)
    stays as it was, no packet ends the loop, not even one without an IPv4
    layer, and the loop returns, with no error, exactly when the context is
    done or the packet channel is closed. *)
Theorem nil_handler_skips_every_packet :
  ∀ (FastHash : Flow → Z) (CS : Type) (st : @state CS) (cs : CS)
    (evs : list event),
    loop FastHash None st evs
    = (if existsb stops evs then Return None st else Continue st) ∧
    StartCapture FastHash None None cs evs
    = (if existsb stops evs then Return None (initial cs)
       else Continue (initial cs)) ∧
    sessionBuffers (state_of (StartCapture FastHash None None cs evs)) = ∅.
Proof.
  intros FastHash CS st cs evs.
  assert (∀ st : @state CS, loop FastHash None st evs
          = (if existsb stops evs then Return None st else Continue st)) as H.
  { clear. induction evs as [|[|[pkg|]] evs IH]; intros st; simpl; auto. }
  split; [apply H|]. unfold StartCapture. rewrite H.
  split; [done|]. by destruct (existsb stops evs).
Qed.




(** C7: the loop relies on [0 <= consumed <= len(buffer)].  Whenever the
    Consumer returns a nil error and a count greater than the length of the
    buffer it was given (or a negative one), the slice expression of line
    170 is out of range and the pass ends in a run-time panic, not in a
    returned error.  A nil buffer, as handed over for a datagram of an
    absent flow and for an unsupported transport, has length 0: any
    positive count panics. *)
Theorem consumed_beyond_buffer_panics :
  ∀ (FastHash : Flow → Z) (CS : Type) (fn : @DataHandler CS),
    (∀ (st : @state CS) src dst F buffer k cs',
       fn (handlerState st) src dst (bytes (mem st) buffer) = ((k, None), cs') →
       len buffer < k →
       consume fn st src dst F buffer
       = Panic slice_bounds
               (with_call st (Call src dst (bytes (mem st) buffer) k None) cs')) ∧
    (∀ cs evs (st : @state CS) pkg c0 more,
       loop FastHash (Some fn) (initial cs) evs = Continue st →
       calls (state_of (iteration FastHash (Some fn) st pkg)) = calls st ++ [c0] →
       call_err c0 = None →
       call_used c0 < 0 ∨ Z.of_nat (length (call_data c0)) < call_used c0 →
       ∃ st', iteration FastHash (Some fn) st pkg = Panic slice_bounds st' ∧
              loop FastHash (Some fn) st (recv (Some pkg) :: more)
              = Panic slice_bounds st') ∧
    (∀ (st : @state CS) pkg name k cs',
       classify FastHash pkg = Unsupported name →
       fn (handlerState st) None None [] = ((k, None), cs') →
       0 < k →
       ∃ st', iteration FastHash (Some fn) st pkg = Panic slice_bounds st') ∧
    (∀ (st : @state CS) pkg F src dst p k cs',
       classify FastHash pkg = Datagram F src dst p →
       sessionBuffers st !! F = None →
       fn (handlerState st) src dst [] = ((k, None), cs') →
       0 < k →
       ∃ st', iteration FastHash (Some fn) st pkg = Panic slice_bounds st').
Proof.
  intros FastHash CS fn. split; [|split; [|split]].
  - intros st src dst F buffer k cs' E Hk.
    rewrite (consume_eq fn _ _ _ _ _ _ _ _ E). simpl.
    repeat case_decide; try done; lia.
  - intros cs evs st pkg c0 more Hreach Hcalls Herr Hk.
    pose proof (reachable_wf FastHash _ _ _ _ Hreach) as Hwf.
    destruct (step_call FastHash fn st pkg c0 Hwf Hcalls) as [Hc _].
    unfold ended in Hc. rewrite Herr in Hc. rewrite decide_False in Hc by lia.
    exists (state_of (iteration FastHash (Some fn) st pkg)).
    split; [exact Hc|]. rewrite loop_cons.
    by destruct (iteration FastHash (Some fn) st pkg).
  - intros st pkg name k cs' Hkind E Hk.
    rewrite (iteration_unsupported FastHash fn st pkg name Hkind).
    destruct (consume_nil fn (with_log st (log_unsupported name)) None None 0
                k None cs' E) as (_ & _ & _ & Hc).
    unfold ended in Hc. rewrite decide_False in Hc by lia. eauto.
  - intros st pkg F src dst p k cs' Hkind HF E Hk.
    rewrite (iteration_datagram FastHash fn st pkg F src dst p Hkind), HF.
    destruct (consume_nil fn st src dst F k None cs' E) as (_ & _ & _ & Hc).
    unfold ended in Hc. rewrite decide_False in Hc by lia. eauto.
Qed.

Lemma consumed_beyond_buffer_panics_witness :
  (0 < 1 ∧
   ∃ st', iteration port_hash (Some overrun) (initial tt) icmp_packet
          = Panic slice_bounds st') ∧
  (0 < 1 ∧
   ∃ st', iteration port_hash (Some overrun) (initial tt) (udp_packet 1 2 "AB")
          = Panic slice_bounds st') ∧
  (∃ st', loop port_hash (Some overrun) (initial tt)
               [recv (Some (handshake 1 2)); recv (Some (payload 1 2 "AB"));
                recv (Some (payload 1 2 "CD"))]
          = Panic slice_bounds st').
Proof.
  destruct (consumed_beyond_buffer_panics port_hash unit overrun)
    as (_ & Hcall & Hother & Hudp).
  split; [|split].
  - split; [lia|].
    apply (Hother (initial tt) icmp_packet "ICMPv4" 1 tt); [reflexivity|reflexivity|lia].
  - split; [lia|].
    eapply (Hudp (initial tt) (udp_packet 1 2 "AB") 7);
      [reflexivity|reflexivity|reflexivity|lia].
  - destruct (Hcall tt [recv (Some (handshake 1 2))]
                (state_of (loop port_hash (Some overrun) (initial tt)
                                [recv (Some (handshake 1 2))]))
                (payload 1 2 "AB")
                (Call (Some (TCPAddr [x0a; x00; x00; x01] 1))
                      (Some (TCPAddr [x0a; x00; x00; x02] 2)) (text "AB") 3 None)
                [recv (Some (payload 1 2 "CD"))])
      as (st' & _ & Hloop).
    + vm_compute. reflexivity.
    + vm_compute. reflexivity.
    + reflexivity.
    + right. vm_compute. reflexivity.
    + exists st'. exact Hloop.
Defined.

(** C5: the TCP session lifecycle of a flow [F].  A SYN+ACK packet leaves
    [F] active with an empty buffer whatever the table held before; a
    FIN+ACK packet (one that is no handshake) removes the entry of [F];
    neither invokes the Consumer.  Once [F] is absent, as after a FIN+ACK,
    and until a SYN+ACK of [F] is seen, every segment of [F] with payload
    is dropped: the pass leaves the state as it was, the Consumer is not
    called. *)
Theorem tcp_session_lifecycle :
  ∀ (FastHash : Flow → Z) (CS : Type) (fn : @DataHandler CS) (F : Z),
    (∀ (st : @state CS) pkg,
       classify FastHash pkg = Handshake F →
       ∃ st', iteration FastHash (Some fn) st pkg = Continue st' ∧
              contents st' !! F = Some [] ∧
              calls st' = calls st ∧ handlerState st' = handlerState st) ∧
    (∀ (st : @state CS) pkg,
       classify FastHash pkg = Teardown F →
       ∃ st', iteration FastHash (Some fn) st pkg = Continue st' ∧
              sessionBuffers st' !! F = None ∧ contents st' !! F = None ∧
              calls st' = calls st ∧ handlerState st' = handlerState st) ∧
    (∀ (st st' : @state CS) evs pkg src dst p,
       sessionBuffers st !! F = None →
       forallb (no_handshake FastHash F) evs = true →
       loop FastHash (Some fn) st evs = Continue st' →
       classify FastHash pkg = Segment F src dst p →
       iteration FastHash (Some fn) st' pkg = Continue st').
Proof.
  intros FastHash CS fn F. split; [|split].
  - intros st pkg Hk. eexists. split; [by apply iteration_handshake|].
    split; [|done]. rewrite contents_lookup. simpl.
    rewrite lookup_insert_eq. simpl. by rewrite bytes_empty.
  - intros st pkg Hk. eexists. split; [by apply iteration_teardown|].
    split; [|split; [|done]].
    + simpl. apply lookup_delete_eq.
    + rewrite contents_lookup. simpl. by rewrite lookup_delete_eq.
  - intros st st' evs pkg src dst p HF Hq Hloop Hk.
    pose proof (loop_absent FastHash (Some fn) F evs st HF Hq) as HF'.
    rewrite Hloop in HF'. simpl in HF'.
    by rewrite (iteration_segment FastHash fn st' pkg F src dst p Hk), HF'.
Qed.

Lemma tcp_session_lifecycle_witness :
  (∃ st', iteration port_hash (Some take_all) (initial tt) (handshake 1 2)
          = Continue st' ∧ contents st' !! 6 = Some []) ∧
  (∃ st', iteration port_hash (Some take_all)
            (state_of (loop port_hash (Some take_all) (initial tt)
                            [recv (Some (handshake 1 2));
                             recv (Some (payload 1 2 "AB"))]))
            (teardown 2 1)
          = Continue st' ∧ sessionBuffers st' !! 6 = None) ∧
  (let st := state_of (loop port_hash (Some take_all) (initial tt)
                            [recv (Some (handshake 1 2));
                             recv (Some (teardown 1 2));
                             recv (Some (handshake 3 4));
                             recv (Some (udp_packet 1 2 "X"))]) in
   iteration port_hash (Some take_all) st (payload 1 2 "AB") = Continue st).
Proof.
  destruct (tcp_session_lifecycle port_hash unit take_all 6) as (Hup & Hdown & Hdrop).
  split; [|split].
  - destruct (Hup (initial tt) (handshake 1 2)) as (st' & H1 & H2 & _);
      [reflexivity|]. by exists st'.
  - destruct (Hdown (state_of (loop port_hash (Some take_all) (initial tt)
                            [recv (Some (handshake 1 2));
                             recv (Some (payload 1 2 "AB"))])) (teardown 2 1))
      as (st' & H1 & H2 & _); [reflexivity|]. by exists st'.
  - intros st.
    eapply (Hdrop (state_of (loop port_hash (Some take_all) (initial tt)
                            [recv (Some (handshake 1 2));
                             recv (Some (teardown 1 2))]))
                  st [recv (Some (handshake 3 4)); recv (Some (udp_packet 1 2 "X"))]
                  (payload 1 2 "AB")).
    + vm_compute. reflexivity.
    + vm_compute. reflexivity.
    + vm_compute. reflexivity.
    + reflexivity.
Defined.

(** C4: residual, then append.  After a handshake of a flow and the
    segments "AB" and "CD", a Consumer that takes one byte per call is
    invoked with "AB", which leaves "B" stored, and then with "BCD", which
    leaves "CD".  In general, when the Consumer is given the buffer [b ++ p]
    of length N and takes [k < N] bytes, the flow keeps the bytes after the
    first [k], and the flow's next segment or datagram is appended to those
    bytes, not to the whole buffer. *)
Theorem residual_then_append :
  (∀ (FastHash : Flow → Z) (sport dport : Z),
     let F := FastHash (NewFlow EndpointTCPPort sport dport) in
     ∃ st2 st3 src dst,
       loop FastHash (Some take_one) (initial tt)
            [recv (Some (handshake sport dport));
             recv (Some (payload sport dport "AB"))] = Continue st2 ∧
       calls st2 = [Call src dst (text "AB") 1 None] ∧
       contents st2 !! F = Some (text "B") ∧
       loop FastHash (Some take_one) (initial tt)
            [recv (Some (handshake sport dport));
             recv (Some (payload sport dport "AB"));
             recv (Some (payload sport dport "CD"))] = Continue st3 ∧
       calls st3 = [Call src dst (text "AB") 1 None;
                    Call src dst (text "BCD") 1 None] ∧
       contents st3 !! F = Some (text "CD")) ∧
  (∀ (FastHash : Flow → Z) (CS : Type) (fn : @DataHandler CS)
     cs evs (st : @state CS) F pkg src dst p b k cs',
     loop FastHash (Some fn) (initial cs) evs = Continue st →
     contents st !! F = Some b →
     classify FastHash pkg = Segment F src dst p ∨
     classify FastHash pkg = Datagram F src dst p →
     fn (handlerState st) src dst (b ++ p) = ((k, None), cs') →
     0 ≤ k < Z.of_nat (length (b ++ p)) →
     ∃ st', iteration FastHash (Some fn) st pkg = Continue st' ∧
            calls st' = calls st ++ [Call src dst (b ++ p) k None] ∧
            contents st' !! F = Some (drop (Z.to_nat k) (b ++ p)) ∧
            ∀ evs' st'' pkg' src' dst' p',
              forallb (quiet FastHash F) evs' = true →
              loop FastHash (Some fn) st' evs' = Continue st'' →
              classify FastHash pkg' = Segment F src' dst' p' ∨
              classify FastHash pkg' = Datagram F src' dst' p' →
              ∃ k' err',
                calls (state_of (iteration FastHash (Some fn) st'' pkg'))
                = calls st'' ++ [Call src' dst' (drop (Z.to_nat k) (b ++ p) ++ p')
                                      k' err']).
Proof.
  assert (∀ (FastHash : Flow → Z) (CS : Type) (fn : @DataHandler CS)
     (st : @state CS) F pkg src dst p b k cs',
     wf st →
     contents st !! F = Some b →
     classify FastHash pkg = Segment F src dst p ∨
     classify FastHash pkg = Datagram F src dst p →
     fn (handlerState st) src dst (b ++ p) = ((k, None), cs') →
     0 ≤ k < Z.of_nat (length (b ++ p)) →
     ∃ st', iteration FastHash (Some fn) st pkg = Continue st' ∧ wf st' ∧
            calls st' = calls st ++ [Call src dst (b ++ p) k None] ∧
            contents st' !! F = Some (drop (Z.to_nat k) (b ++ p))) as Hstep.
  { intros FastHash CS fn st F pkg src dst p b k cs' Hwf Hb Hkind E Hk.
    destruct (step_active FastHash fn st pkg F src dst p b k None cs' Hwf Hb Hkind E)
      as (Hw & Hcalls & _ & Hpart & _ & Hc).
    unfold ended in Hc. rewrite decide_True in Hc by lia.
    exists (state_of (iteration FastHash (Some fn) st pkg)).
    split; [done|]. split; [done|]. split; [done|].
    rewrite (Hpart eq_refl Hk). apply lookup_insert_eq. }
  split.
  - intros FastHash sport dport F.
    set (src := Some (TCPAddr (SrcIP (ip_header LayerTypeTCP)) sport)).
    set (dst := Some (TCPAddr (DstIP (ip_header LayerTypeTCP)) dport)).
    destruct (step_handshake FastHash take_one (initial tt) (handshake sport dport) F
                (wf_initial tt) eq_refl) as (st1 & H1 & Hw1 & Hc1 & Hcalls1 & _).
    assert (contents st1 !! F = Some []) as Hb1 by (rewrite Hc1; apply lookup_insert_eq).
    assert (classify FastHash (payload sport dport "AB")
            = Segment F src dst (text "AB")) as Hab by reflexivity.
    assert (classify FastHash (payload sport dport "CD")
            = Segment F src dst (text "CD")) as Hcd by reflexivity.
    destruct (Hstep FastHash unit take_one st1 F (payload sport dport "AB") src dst
                (text "AB") [] 1 (handlerState st1) Hw1 Hb1 (or_introl Hab) eq_refl)
      as (st2 & H2 & Hw2 & Hcalls2 & Hb2); [simpl; lia|].
    destruct (Hstep FastHash unit take_one st2 F (payload sport dport "CD") src dst
                (text "CD") (text "B") 1 (handlerState st2) Hw2 Hb2 (or_introl Hcd) eq_refl)
      as (st3 & H3 & Hw3 & Hcalls3 & Hb3); [simpl; lia|].
    exists st2, st3, src, dst.
    rewrite !(loop_cons FastHash _ (initial tt)), H1. cbv beta iota.
    rewrite !(loop_cons FastHash _ st1), H2. cbv beta iota.
    rewrite (loop_cons FastHash _ st2), H3.
    rewrite Hcalls3, Hcalls2, Hcalls1. done.
  - intros FastHash CS fn cs evs st F pkg src dst p b k cs' Hreach Hb Hkind E Hk.
    pose proof (reachable_wf FastHash _ _ _ _ Hreach) as Hwf.
    destruct (Hstep FastHash CS fn st F pkg src dst p b k cs' Hwf Hb Hkind E Hk)
      as (st' & H1 & Hw' & Hcalls & Hb').
    exists st'. split; [done|]. split; [done|]. split; [done|].
    intros evs' st'' pkg' src' dst' p' Hq Hloop Hkind'.
    by apply (next_payload FastHash fn st' F _ evs' st'' pkg' src' dst' p').
Qed.

Lemma residual_then_append_witness :
  let st := state_of (loop port_hash (Some take_one) (initial tt)
                           [recv (Some (handshake 1 2));
                            recv (Some (payload 1 2 "AB"))]) in
  contents st !! 6 = Some (text "B") ∧
  ∃ st', iteration port_hash (Some take_one) st (payload 2 1 "CD") = Continue st' ∧
         contents st' !! 6 = Some (text "CD") ∧
         ∃ k' err',
           calls (state_of (iteration port_hash (Some take_one)
                              (state_of (loop port_hash (Some take_one) st'
                                              [recv (Some (payload 2 1 ""));
                                               recv (Some (handshake 7 8))]))
                              (payload 1 2 "EF")))
           = calls (state_of (loop port_hash (Some take_one) st'
                                   [recv (Some (payload 2 1 ""));
                                    recv (Some (handshake 7 8))]))
             ++ [Call (Some (TCPAddr [x0a; x00; x00; x01] 1))
                      (Some (TCPAddr [x0a; x00; x00; x02] 2))
                      (text "CDEF") k' err'].
Proof.
  intros st. split; [vm_compute; reflexivity|].
  destruct residual_then_append as [_ Hgen].
  destruct (Hgen port_hash unit take_one tt
              [recv (Some (handshake 1 2)); recv (Some (payload 1 2 "AB"))]
              st 6 (payload 2 1 "CD")
              (Some (TCPAddr [x0a; x00; x00; x01] 2))
              (Some (TCPAddr [x0a; x00; x00; x02] 1))
              (text "CD") (text "B") 1 tt)
    as (st' & Hit & _ & Hres & Hnext).
  - vm_compute. reflexivity.
  - vm_compute. reflexivity.
  - left. reflexivity.
  - reflexivity.
  - simpl. lia.
  - exists st'. split; [exact Hit|]. split; [exact Hres|].
    apply (Hnext [recv (Some (payload 2 1 "")); recv (Some (handshake 7 8))]
                 (state_of (loop port_hash (Some take_one) st'
                                 [recv (Some (payload 2 1 ""));
                                  recv (Some (handshake 7 8))]))
                 (payload 1 2 "EF")
                 (Some (TCPAddr [x0a; x00; x00; x01] 1))
                 (Some (TCPAddr [x0a; x00; x00; x02] 2))
                 (text "EF")).
    + reflexivity.
    + assert (st' = state_of (iteration port_hash (Some take_one) st (payload 2 1 "CD")))
        as -> by (by rewrite Hit).
      vm_compute. reflexivity.
    + left. reflexivity.
Defined.




(** C1 fails on the code: after "AB" with one byte taken the flow keeps
    "B"; the Consumer then takes all of "BCD", and line 169 skips the store,
    so the table still holds the header of "B" (one cell, at index 1 of the
    array that now reads "ABCD"); the next segment "EF" is delivered as
    "BEF": the byte "B", consumed by the second call, is delivered again. *)
Theorem full_consumption_keeps_stale_bytes :
  (λ c, (call_data c, call_used c, call_err c)) <$>
    calls (state_of (loop port_hash (Some one_then_all) (initial 0%nat)
                          [recv (Some (handshake 1 2));
                           recv (Some (payload 1 2 "AB"));
                           recv (Some (payload 1 2 "CD"));
                           recv (Some (payload 1 2 "EF"))]))
  = [(text "AB", 1, None); (text "BCD", 3, None); (text "BEF", 3, None)] ∧
  (let st := state_of (loop port_hash (Some one_then_all) (initial 0%nat)
                            [recv (Some (handshake 1 2));
                             recv (Some (payload 1 2 "AB"));
                             recv (Some (payload 1 2 "CD"))]) in
   mem st = [text "ABCD"] ∧
   sessionBuffers st !! 6
   = Some (Slice (Some 0%nat) 1 1 (defaultTCPBufferLen - 1)) ∧
   contents st !! 6 = Some (text "B")).
Proof. split; [vm_compute; reflexivity|]. vm_compute. done. Qed.

(** C6 fails on the code: for a packet of an unsupported transport the
    switch logs and falls through to line 161: the Consumer is invoked,
    with nil addresses and a nil buffer; a Consumer that then reports a
    positive count makes the loop panic.  The session table is not
    changed. *)
Theorem unsupported_transport_reaches_the_consumer :
  loop port_hash (Some take_all) (initial tt) [recv (Some icmp_packet)]
  = Continue (State [] ∅ tt [Call None None [] 0 None]
                    [log_unsupported "ICMPv4"]) ∧
  loop port_hash (Some overrun) (initial tt)
       [recv (Some icmp_packet); recv (Some (handshake 1 2))]
  = Panic slice_bounds (State [] ∅ tt [Call None None [] 1 None]
                              [log_unsupported "ICMPv4"]).
Proof. split; reflexivity. Qed.

(** ** Descriptors *)

Lemma strip_prefix_Some p : ∀ s r, strip_prefix p s = Some r → s = p +:+ r.
Proof.
  induction p as [|a p IH]; intros s r; simpl.
  - by intros [= ->].
  - destruct s as [|b s]; [done|].
    destruct (Ascii.eqb_spec a b) as [->|]; [|done].
    intros H. by rewrite (IH _ _ H).
Qed.

Lemma FindStringSubmatch_Some s m :
  FindStringSubmatch s = Some m →
  ∃ source, dot_star_end source = true ∧
            (s = "pcap://" +:+ source ∧ m = [s; "pcap"; source] ∨
             s = "file://" +:+ source ∧ m = [s; "file"; source]).
Proof.
  unfold FindStringSubmatch. intros H.
  destruct (strip_prefix "pcap://" s) as [source|] eqn:Hp.
  - destruct (dot_star_end source) eqn:Hd; [|done]. injection H as <-.
    exists source. split; [done|]. left. split; [|done].
    by apply strip_prefix_Some.
  - destruct (strip_prefix "file://" s) as [source|] eqn:Hf; [|done].
    destruct (dot_star_end source) eqn:Hd; [|done]. injection H as <-.
    exists source. split; [done|]. right. split; [|done].
    by apply strip_prefix_Some.
Qed.

(** What [CreateHandler] does with a descriptor the pattern accepts. *)
Lemma CreateHandler_matched sys source :
  dot_star_end source = true →
  CreateHandler sys ("pcap://" +:+ source)
  = match resolve_source sys source with
    | Err err => Err err
    | Ok source =>
        match OpenLive sys source with
        | Some err => Err (errors_WithStack err)
        | None => Ok (live_handle source)
        end
    end ∧
  CreateHandler sys ("file://" +:+ source)
  = match resolve_source sys source with
    | Err err => Err err
    | Ok source =>
        match OpenOffline sys source with
        | Some err => Err (errors_WithStack err)
        | None => Ok (offline_handle source)
        end
    end.
Proof.
  intros Hd.
  assert (FindStringSubmatch ("pcap://" +:+ source)
          = Some ["pcap://" +:+ source; "pcap"; source]) as Hp.
  { unfold FindStringSubmatch.
    change (strip_prefix "pcap://" ("pcap://" +:+ source)) with (Some source).
    cbv beta iota. by rewrite Hd. }
  assert (FindStringSubmatch ("file://" +:+ source)
          = Some ["file://" +:+ source; "file"; source]) as Hf.
  { unfold FindStringSubmatch.
    change (strip_prefix "pcap://" ("file://" +:+ source)) with (@None string).
    change (strip_prefix "file://" ("file://" +:+ source)) with (Some source).
    cbv beta iota. by rewrite Hd. }
  unfold CreateHandler. rewrite Hp, Hf. split; reflexivity.
Qed.

(** C8, as the code has it: bad descriptors have one error.  The pattern of
    line 23 lists the two modes, so a descriptor of the right shape with
    another mode token does not match it and fails, like any other
    descriptor that does not match, with "invalid data source"; every
    descriptor that does not start with [pcap://] or [file://] fails so.
    The "unknown pcap protocol" error of line 71 is never returned. *)
Theorem bad_descriptor_has_one_error :
  ∀ (sys : system) (dataSrc : string),
    (FindStringSubmatch dataSrc = None →
     CreateHandler sys dataSrc = Err (invalid_data_source dataSrc)) ∧
    ((∀ source, dataSrc ≠ "pcap://" +:+ source ∧ dataSrc ≠ "file://" +:+ source) →
     CreateHandler sys dataSrc = Err (invalid_data_source dataSrc)) ∧
    (∀ proto, CreateHandler sys dataSrc ≠ Err (unknown_pcap_protocol proto)).
Proof.
  intros sys dataSrc.
  assert (FindStringSubmatch dataSrc = None →
          CreateHandler sys dataSrc = Err (invalid_data_source dataSrc)) as Hnone.
  { intros H. unfold CreateHandler. by rewrite H. }
  split; [done|]. split.
  - intros Hshape. apply Hnone.
    destruct (FindStringSubmatch dataSrc) as [m|] eqn:Hm; [|done].
    destruct (FindStringSubmatch_Some _ _ Hm) as (source & _ & [[H _]|[H _]]);
      by destruct (Hshape source).
  - intros proto H.
    destruct (FindStringSubmatch dataSrc) as [m|] eqn:Hm.
    + destruct (FindStringSubmatch_Some _ _ Hm) as (source & Hd & [[-> _]|[-> _]]);
        destruct (CreateHandler_matched sys source Hd) as [Hlive Hfile];
        [rewrite Hlive in H|rewrite Hfile in H];
        unfold resolve_source in H;
        repeat case_match; simplify_eq.
    + rewrite (Hnone eq_refl) in H. unfold invalid_data_source, unknown_pcap_protocol in H.
      simplify_eq.
Qed.

Lemma bad_descriptor_has_one_error_witness :
  FindStringSubmatch "foo://bar" = None ∧
  CreateHandler host "foo://bar" = Err (invalid_data_source "foo://bar").
Proof.
  split; [reflexivity|].
  exact (proj1 (bad_descriptor_has_one_error host "foo://bar") eq_refl).
Defined.

(** C8 as stated fails: [foo://bar] has the shape [mode://source] and an
    unknown mode; it fails with "invalid data source", not with "unknown
    pcap protocol". *)
Lemma unknown_mode_counterexample :
  "foo://bar" = "foo" +:+ "://" +:+ "bar" ∧
  CreateHandler host "foo://bar"
  = Err (errors_New "invalid data source: foo://bar") ∧
  CreateHandler host "foo://bar" ≠ Err (errors_New "unknown pcap protocol: foo").
Proof. split; [reflexivity|]. split; [reflexivity|discriminate]. Qed.

(** C9, as the code has it: the locator is rewritten before the mode is
    looked at, so in both modes a locator that resolves to an address owned
    by a local interface is replaced by the name of the first such
    interface.  In replay mode the locator reaches [OpenOffline] unchanged
    when it does not resolve, or resolves to an address no interface
    owns. *)
Theorem locator_rewritten_in_both_modes :
  ∀ (sys : system) (source : string),
    dot_star_end source = true →
    (∀ err, ResolveIPAddr sys source = Err err →
       CreateHandler sys ("file://" +:+ source)
       = match OpenOffline sys source with
         | Some err => Err (errors_WithStack err)
         | None => Ok (offline_handle source)
         end) ∧
    (∀ ip ifaceList, ResolveIPAddr sys source = Ok ip →
       FindAllDevs sys = Ok ifaceList →
       Forall (λ iface, Forall (λ addr, IP_Equal addr ip = false) (Addresses iface))
              ifaceList →
       CreateHandler sys ("file://" +:+ source)
       = match OpenOffline sys source with
         | Some err => Err (errors_WithStack err)
         | None => Ok (offline_handle source)
         end) ∧
    (∀ ip before iface after addr,
       ResolveIPAddr sys source = Ok ip →
       FindAllDevs sys = Ok (before ++ iface :: after) →
       Forall (λ iface, Forall (λ addr, IP_Equal addr ip = false) (Addresses iface))
              before →
       addr ∈ Addresses iface → IP_Equal addr ip = true →
       CreateHandler sys ("file://" +:+ source)
       = match OpenOffline sys (Name iface) with
         | Some err => Err (errors_WithStack err)
         | None => Ok (offline_handle (Name iface))
         end ∧
       CreateHandler sys ("pcap://" +:+ source)
       = match OpenLive sys (Name iface) with
         | Some err => Err (errors_WithStack err)
         | None => Ok (live_handle (Name iface))
         end).
Proof.
  intros sys source Hd.
  destruct (CreateHandler_matched sys source Hd) as [Hlive Hfile].
  assert (∀ ip l, Forall (λ iface, Forall (λ addr, IP_Equal addr ip = false)
                                          (Addresses iface)) l →
                  ∀ rest, FIND_IFACE (l ++ rest) ip source = FIND_IFACE rest ip source)
    as Hskip.
  { intros ip l Hl rest. induction Hl as [|iface l Hi _ IH]; [done|]. simpl.
    assert (existsb (λ addr, IP_Equal addr ip) (Addresses iface) = false) as ->; [|done].
    induction Hi as [|addr l' Ha _ IH']; [done|]. simpl. by rewrite Ha, IH'. }
  split; [|split].
  - intros err Hr. rewrite Hfile. unfold resolve_source. by rewrite Hr.
  - intros ip ifaceList Hr Hdevs Hnone. rewrite Hfile. unfold resolve_source.
    rewrite Hr, Hdevs.
    rewrite <- (app_nil_r ifaceList), (Hskip ip ifaceList Hnone []). done.
  - intros ip before iface after addr Hr Hdevs Hnone Hin Heq.
    assert (FIND_IFACE (before ++ iface :: after) ip source = Name iface) as Hfind.
    { rewrite (Hskip ip before Hnone). simpl.
      assert (existsb (λ addr, IP_Equal addr ip) (Addresses iface) = true) as ->; [|done].
      apply existsb_exists. exists addr. split; [|done]. by apply list_elem_of_In. }
    rewrite Hlive, Hfile. unfold resolve_source. by rewrite Hr, Hdevs, Hfind.
Qed.

Lemma locator_rewritten_in_both_modes_witness :
  CreateHandler host "file://capture.pcap" = Ok (offline_handle "capture.pcap") ∧
  CreateHandler host "file://10.0.0.1" = Ok (offline_handle "eth0") ∧
  CreateHandler host "pcap://10.0.0.1" = Ok (live_handle "eth0").
Proof.
  destruct (locator_rewritten_in_both_modes host "capture.pcap" eq_refl)
    as (Hplain & _ & _).
  destruct (locator_rewritten_in_both_modes host "10.0.0.1" eq_refl)
    as (_ & _ & Hown).
  split; [exact (Hplain (errors_New "no such host") eq_refl)|].
  apply (Hown [x0a; x00; x00; x01]
              [ {| Name := "lo"; Addresses := [[x7f; x00; x00; x01]] |} ]
              {| Name := "eth0"; Addresses := [[x0a; x00; x00; x01]] |}
              [] [x0a; x00; x00; x01]).
  - reflexivity.
  - reflexivity.
  - repeat constructor.
  - repeat constructor.
  - vm_compute. reflexivity.
Defined.

(** C9 as stated fails: in replay mode the locator [10.0.0.1], the address
    of the interface [eth0], is not passed through as a file path:
    [OpenOffline] is called on [eth0]. *)
Lemma replay_locator_counterexample :
  CreateHandler host "file://10.0.0.1" = Ok (offline_handle "eth0") ∧
  CreateHandler host "file://10.0.0.1" ≠ Ok (offline_handle "10.0.0.1").
Proof. split; [vm_compute; reflexivity|vm_compute; discriminate]. Qed.

(** * Further properties of the capture loop *)

Lemma loop_app (FastHash : Flow → Z) (CS : Type)
    (fn : option (@DataHandler CS)) evs1 evs2 :
  ∀ st : @state CS,
    loop FastHash fn st (evs1 ++ evs2)
    = match loop FastHash fn st evs1 with
      | Continue st1 => loop FastHash fn st1 evs2
      | stop => stop
      end.
Proof.
  induction evs1 as [|[|[pkg|]] evs1 IH]; intros st; simpl; try done.
  destruct (iteration FastHash fn st pkg); [apply IH|done..].
Qed.

(** X1: end of stream.  When the Consumer returns [io.EOF] for a packet,
    the loop returns nil at that packet: the events after it are not
    looked at and the session table is left as it was before the packet. *)
Theorem eof_stops_the_loop :
  ∀ (FastHash : Flow → Z) (CS : Type) (fn : @DataHandler CS)
    cs evs (st : @state CS) pkg c0 more,
    loop FastHash (Some fn) (initial cs) evs = Continue st →
    calls (state_of (iteration FastHash (Some fn) st pkg)) = calls st ++ [c0] →
    call_err c0 = Some io_EOF →
    ∃ st', loop FastHash (Some fn) st (recv (Some pkg) :: more) = Return None st' ∧
           calls st' = calls st ++ [c0] ∧
           sessionBuffers st' = sessionBuffers st ∧
           contents st' = contents st.
Proof.
  intros FastHash CS fn cs evs st pkg c0 more Hreach Hcalls Herr.
  pose proof (reachable_wf FastHash _ _ _ _ Hreach) as Hwf.
  destruct (step_call FastHash fn st pkg c0 Hwf Hcalls) as [Hc Hrest].
  unfold ended in Hc. rewrite Herr in Hc. cbv beta iota delta [is_EOF] in Hc.
  destruct Hrest as [Htab Hcont]; [rewrite Herr; by intros [? _]|].
  exists (state_of (iteration FastHash (Some fn) st pkg)).
  split; [|done]. rewrite loop_cons.
  destruct (iteration FastHash (Some fn) st pkg) as [s|e s|q s];
    try discriminate Hc.
  by injection Hc as ->.
Qed.

Lemma eof_stops_the_loop_witness :
  let st := state_of (loop port_hash (Some eof_on_second) (initial 0%nat)
                           [recv (Some (handshake 1 2));
                            recv (Some (payload 1 2 "AB"))]) in
  ∃ st', loop port_hash (Some eof_on_second) st
              [recv (Some (payload 1 2 "CD")); recv (Some (payload 1 2 "EF"))]
         = Return None st' ∧
         contents st' !! 6 = Some (text "B").
Proof.
  intros st.
  destruct (eof_stops_the_loop port_hash nat eof_on_second 0%nat
              [recv (Some (handshake 1 2)); recv (Some (payload 1 2 "AB"))]
              st (payload 1 2 "CD")
              (Call (Some (TCPAddr [x0a; x00; x00; x01] 1))
                    (Some (TCPAddr [x0a; x00; x00; x02] 2))
                    (text "BCD") 0 (Some io_EOF))
              [recv (Some (payload 1 2 "EF"))])
    as (st' & Hloop & _ & _ & Hcont).
  - vm_compute. reflexivity.
  - vm_compute. reflexivity.
  - reflexivity.
  - exists st'. split; [exact Hloop|]. rewrite Hcont. vm_compute. reflexivity.
Defined.

(** X2: cancellation and exhaustion.  Once the context is done or the
    packet channel is closed, the loop returns nil with the state it had
    reached; no later event is processed. *)
Theorem stop_event_ends_the_loop :
  ∀ (FastHash : Flow → Z) (CS : Type) (fn : option (@DataHandler CS))
    (st st1 : @state CS) evs ev more,
    loop FastHash fn st evs = Continue st1 →
    stops ev = true →
    loop FastHash fn st (evs ++ ev :: more) = Return None st1.
Proof.
  intros FastHash CS fn st st1 evs ev more Hloop Hstop.
  rewrite loop_app, Hloop. by destruct ev as [|[pkg|]].
Qed.

Lemma stop_event_ends_the_loop_witness :
  loop port_hash (Some take_one) (initial tt)
       ([recv (Some (handshake 1 2)); recv (Some (payload 1 2 "AB"))]
          ++ ctx_Done :: [recv (Some (payload 1 2 "CD"))])
  = Return None
      (state_of (loop port_hash (Some take_one) (initial tt)
                      [recv (Some (handshake 1 2)); recv (Some (payload 1 2 "AB"))])).
Proof.
  apply (stop_event_ends_the_loop port_hash unit (Some take_one)).
  - vm_compute. reflexivity.
  - reflexivity.
Defined.

(** X3: flow isolation.  From a state the loop can reach, events that are
    no handshake, teardown, segment or datagram of flow [F] leave the bytes
    stored for [F] as they are, however the loop ends: appends and
    consumptions on other flows never touch them. *)
Theorem flow_isolation :
  ∀ (FastHash : Flow → Z) (CS : Type) (fn : option (@DataHandler CS))
    cs evs0 (st : @state CS) F evs,
    loop FastHash fn (initial cs) evs0 = Continue st →
    forallb (quiet FastHash F) evs = true →
    contents (state_of (loop FastHash fn st evs)) !! F = contents st !! F.
Proof.
  intros FastHash CS fn cs evs0 st F evs Hreach Hq.
  apply loop_quiet; [|done]. by eapply reachable_wf.
Qed.

Lemma flow_isolation_witness :
  let st := state_of (loop port_hash (Some take_one) (initial tt)
                           [recv (Some (handshake 1 2));
                            recv (Some (payload 1 2 "AB"))]) in
  contents (state_of (loop port_hash (Some take_one) st
                           [recv (Some (handshake 3 4));
                            recv (Some (payload 3 4 "XYZ"));
                            recv (Some (payload 4 3 "W"));
                            recv (Some (teardown 3 4))])) !! 6
  = Some (text "B").
Proof.
  intros st.
  rewrite (flow_isolation port_hash unit (Some take_one) tt
             [recv (Some (handshake 1 2)); recv (Some (payload 1 2 "AB"))] st 6).
  - vm_compute. reflexivity.
  - vm_compute. reflexivity.
  - vm_compute. reflexivity.
Defined.

(** X4: the table's invariant.  Whatever the events and however the loop
    ends, every stored slice header lies within an allocated backing array,
    over cells already written, and no two flows have their headers on the
    same array: an in-place append for one flow cannot overwrite another
    flow's bytes. *)
Theorem stored_headers_never_share_an_array :
  ∀ (FastHash : Flow → Z) (CS : Type) (fn : option (@DataHandler CS))
    (cs : CS) (evs : list event),
    wf (state_of (loop FastHash fn (initial cs) evs)).
Proof. intros. apply loop_wf, wf_initial. Qed.

(** X5: only a handshake creates an entry.  Starting from the empty table,
    a flow of which no SYN+ACK packet was seen has no entry, whatever
    segments and datagrams of the flow arrived: in particular no UDP flow
    ever gets a buffer. *)
Theorem entries_come_from_handshakes :
  ∀ (FastHash : Flow → Z) (CS : Type) (fn : option (@DataHandler CS))
    (cs : CS) (evs : list event) (F : Z),
    forallb (no_handshake FastHash F) evs = true →
    sessionBuffers (state_of (loop FastHash fn (initial cs) evs)) !! F = None.
Proof.
  intros FastHash CS fn cs evs F Hq. by apply loop_absent.
Qed.

Lemma entries_come_from_handshakes_witness :
  sessionBuffers
    (state_of (loop port_hash (Some take_all) (initial tt)
                    [recv (Some (udp_packet 1 2 "AB"));
                     recv (Some (handshake 1 2));
                     recv (Some (udp_packet 2 1 "CD"))])) !! 7 = None.
Proof.
  apply (entries_come_from_handshakes port_hash unit (Some take_all)).
  vm_compute. reflexivity.
Defined.

(** X6: a datagram of a flow without entry.  The Consumer is invoked with
    the flow's endpoints and a nil buffer, the payload of the datagram is
    not delivered, and neither the table nor the memory changes; the pass
    goes on when the Consumer returns a zero count or an error other than
    [io.EOF]. *)
Theorem datagram_of_absent_flow :
  ∀ (FastHash : Flow → Z) (CS : Type) (fn : @DataHandler CS)
    (st : @state CS) pkg F src dst p k err cs',
    classify FastHash pkg = Datagram F src dst p →
    sessionBuffers st !! F = None →
    fn (handlerState st) src dst [] = ((k, err), cs') →
    let c := iteration FastHash (Some fn) st pkg in
    calls (state_of c) = calls st ++ [Call src dst [] k err] ∧
    sessionBuffers (state_of c) = sessionBuffers st ∧
    mem (state_of c) = mem st ∧
    c = ended 0 k err (state_of c).
Proof.
  intros FastHash CS fn st pkg F src dst p k err cs' Hk HF E c. subst c.
  rewrite (iteration_datagram FastHash fn st pkg F src dst p Hk), HF.
  destruct (consume_nil fn st src dst F k err cs' E) as (H1 & H2 & H3 & H4).
  done.
Qed.

Lemma datagram_of_absent_flow_witness :
  iteration port_hash (Some take_all) (initial tt) (udp_packet 1 2 "AB")
  = Continue (State [] ∅ tt
                    [Call (Some (UDPAddr [x0a; x00; x00; x01] 1))
                          (Some (UDPAddr [x0a; x00; x00; x02] 2)) [] 0 None] []).
Proof.
  destruct (datagram_of_absent_flow port_hash unit take_all (initial tt)
              (udp_packet 1 2 "AB") 7
              (Some (UDPAddr [x0a; x00; x00; x01] 1))
              (Some (UDPAddr [x0a; x00; x00; x02] 2)) (text "AB") 0 None tt)
    as (_ & _ & _ & Hc); [reflexivity..|].
  rewrite Hc. reflexivity.
Defined.

(** X7: a missing transport layer.  With a Consumer registered, a packet
    whose IPv4 header announces TCP (or UDP) while the packet has no
    decoded TCP (or UDP) layer makes the loop panic on the nil layer
    pointer, with the state untouched; the two-result type assertion of
    lines 121 and 149 hides the missing layer until the first field
    access. *)
Theorem missing_transport_layer_panics :
  ∀ (FastHash : Flow → Z) (CS : Type) (fn : @DataHandler CS)
    (st : @state CS) pkg ip more,
    Layer_IPv4 pkg = layer_ptr (Some ip) →
    NextLayerType ip = LayerTypeTCP ∧ assert_type_ok (Layer_TCP pkg) = None ∨
    NextLayerType ip = LayerTypeUDP ∧ assert_type_ok (Layer_UDP pkg) = None →
    iteration FastHash (Some fn) st pkg = Panic nil_dereference st ∧
    loop FastHash (Some fn) st (recv (Some pkg) :: more) = Panic nil_dereference st.
Proof.
  intros FastHash CS fn st pkg ip more Hip Hl.
  assert (iteration FastHash (Some fn) st pkg = Panic nil_dereference st) as H.
  { unfold iteration, switch, case_TCP, case_UDP. rewrite Hip. simpl.
    by destruct Hl as [[-> ->]|[-> ->]]. }
  split; [done|]. by rewrite loop_cons, H.
Qed.

Lemma missing_transport_layer_panics_witness :
  loop port_hash (Some take_all) (initial tt)
       [recv (Some truncated_tcp_packet); recv (Some (handshake 1 2))]
  = Panic nil_dereference (initial tt).
Proof.
  apply (missing_transport_layer_panics port_hash unit take_all (initial tt)
           truncated_tcp_packet (ip_header LayerTypeTCP)).
  - reflexivity.
  - left. split; reflexivity.
Defined.

Lemma segment_has_payload (FastHash : Flow → Z) pkg F src dst p :
  classify FastHash pkg = Segment F src dst p → p ≠ [].
Proof.
  unfold classify. intros H. repeat case_match; simplify_eq. done.
Qed.

(** X8: no empty buffer for TCP.  From a state the loop can reach, when a
    TCP packet makes the loop invoke the Consumer, the packet is a segment
    with payload of an active flow and the buffer handed over is the bytes
    stored for the flow followed by that payload: it is never empty. *)
Theorem tcp_buffer_is_never_empty :
  ∀ (FastHash : Flow → Z) (CS : Type) (fn : @DataHandler CS)
    cs evs (st : @state CS) pkg c0,
    loop FastHash (Some fn) (initial cs) evs = Continue st →
    is_TCP FastHash pkg = true →
    calls (state_of (iteration FastHash (Some fn) st pkg)) = calls st ++ [c0] →
    call_data c0 ≠ [] ∧
    ∃ F b p, classify FastHash pkg = Segment F (call_src c0) (call_dst c0) p ∧
             contents st !! F = Some b ∧ call_data c0 = b ++ p.
Proof.
  intros FastHash CS fn cs evs st pkg c0 Hreach Htcp Hcalls.
  pose proof (reachable_wf FastHash _ _ _ _ Hreach) as Hwf.
  unfold is_TCP in Htcp.
  destruct (classify FastHash pkg) as [G|G|G|G src dst p|G src dst p|name|] eqn:Hk;
    try done.
  - rewrite (iteration_handshake FastHash fn st pkg G Hk) in Hcalls.
    by apply no_new_call in Hcalls.
  - rewrite (iteration_teardown FastHash fn st pkg G Hk) in Hcalls.
    by apply no_new_call in Hcalls.
  - rewrite (iteration_bare FastHash fn st pkg G Hk) in Hcalls.
    by apply no_new_call in Hcalls.
  - destruct (contents st !! G) as [b|] eqn:Hb.
    + destruct (fn (handlerState st) src dst (b ++ p)) as [[k err] cs'] eqn:E.
      destruct (step_active FastHash fn st pkg G src dst p b k err cs' Hwf Hb
                  (or_introl Hk) E) as (_ & Hc & _).
      rewrite Hc in Hcalls. apply same_call in Hcalls. subst c0. simpl.
      split; [|by exists G, b, p].
      intros [_ Hp]%app_eq_nil. by apply (segment_has_payload _ _ _ _ _ _ Hk).
    + rewrite (iteration_segment FastHash fn st pkg G src dst p Hk) in Hcalls.
      rewrite contents_lookup in Hb.
      destruct (sessionBuffers st !! G); [done|]. by apply no_new_call in Hcalls.
Qed.

Lemma tcp_buffer_is_never_empty_witness :
  let st := state_of (loop port_hash (Some take_all) (initial tt)
                           [recv (Some (handshake 1 2))]) in
  ∃ F b p, classify port_hash (payload 1 2 "AB")
           = Segment F (Some (TCPAddr [x0a; x00; x00; x01] 1))
                     (Some (TCPAddr [x0a; x00; x00; x02] 2)) p ∧
           contents st !! F = Some b ∧ text "AB" = b ++ p.
Proof.
  intros st.
  destruct (tcp_buffer_is_never_empty port_hash unit take_all tt
              [recv (Some (handshake 1 2))] st (payload 1 2 "AB")
              (Call (Some (TCPAddr [x0a; x00; x00; x01] 1))
                    (Some (TCPAddr [x0a; x00; x00; x02] 2))
                    (text "AB") 2 None)) as [_ H].
  - vm_compute. reflexivity.
  - reflexivity.
  - vm_compute. reflexivity.
  - exact H.
Defined.

Section CallTrace.

Variable FastHash : Flow -> Z.
Context {CS : Type}.

Implicit Types (st : @state CS) (pkg : Packet).

Lemma consume_one_call (fn : @DataHandler CS) st src dst F buffer :
  ∃ c0, calls (state_of (consume fn st src dst F buffer)) = calls st ++ [c0].
Proof.
  destruct (fn (handlerState st) src dst (bytes (mem st) buffer))
    as [[k err] cs'] eqn:E.
  rewrite (consume_eq fn _ _ _ _ _ _ _ _ E). simpl.
  exists (Call src dst (bytes (mem st) buffer) k err).
  destruct err as [e|]; [by destruct (is_EOF e)|].
  by repeat case_decide.
Qed.

Lemma step_calls (fn : option (@DataHandler CS)) st pkg :
  calls (state_of (iteration FastHash fn st pkg)) = calls st ∨
  ∃ c0, calls (state_of (iteration FastHash fn st pkg)) = calls st ++ [c0].
Proof.
  destruct fn as [fn|]; [|by left].
  destruct (classify FastHash pkg) as [G|G|G|G src dst p|G src dst p|name|] eqn:Hk.
  - left. by rewrite (iteration_handshake FastHash fn st pkg G Hk).
  - left. by rewrite (iteration_teardown FastHash fn st pkg G Hk).
  - left. by rewrite (iteration_bare FastHash fn st pkg G Hk).
  - rewrite (iteration_segment FastHash fn st pkg G src dst p Hk).
    destruct (sessionBuffers st !! G); [right|by left].
    apply (consume_one_call fn (with_mem st _)).
  - right. rewrite (iteration_datagram FastHash fn st pkg G src dst p Hk).
    destruct (sessionBuffers st !! G).
    + apply (consume_one_call fn (with_mem st _)).
    + apply consume_one_call.
  - right. rewrite (iteration_unsupported FastHash fn st pkg name Hk).
    apply (consume_one_call fn (with_log st _)).
  - left. by destruct (iteration_undecodable FastHash fn st pkg Hk) as [-> _].
Qed.

Lemma loop_calls (fn : option (@DataHandler CS)) evs :
  ∀ st, ∃ new, calls (state_of (loop FastHash fn st evs)) = calls st ++ new ∧
               (length new ≤ length evs)%nat.
Proof.
  induction evs as [|[|[pkg|]] evs IH]; intros st; simpl;
    try (exists []; split; [by rewrite app_nil_r|simpl; lia]).
  pose proof (step_calls fn st pkg) as Hstep.
  destruct (iteration FastHash fn st pkg) as [st1|e st1|q st1] eqn:Hit;
    simpl in Hstep |- *.
  - destruct (IH st1) as (new & Hnew & Hlen). rewrite Hnew.
    destruct Hstep as [->|[c0 ->]].
    + exists new. split; [done|lia].
    + exists (c0 :: new). split; [by rewrite <- app_assoc|simpl; lia].
  - destruct Hstep as [->|[c0 ->]].
    + exists []. split; [by rewrite app_nil_r|simpl; lia].
    + exists [c0]. split; [done|simpl; lia].
  - destruct Hstep as [->|[c0 ->]].
    + exists []. split; [by rewrite app_nil_r|simpl; lia].
    + exists [c0]. split; [done|simpl; lia].
Qed.

End CallTrace.

(** X9: at most one call per packet.  A pass through the loop body invokes
    the Consumer at most once, and over any events the record of the calls
    only grows at its end, by at most one call per event: no packet is
    handed to the Consumer twice and no past call is redone. *)
Theorem one_call_per_packet :
  ∀ (FastHash : Flow → Z) (CS : Type) (fn : option (@DataHandler CS))
    (st : @state CS) (pkg : Packet) (evs : list event),
    (calls (state_of (iteration FastHash fn st pkg)) = calls st ∨
     ∃ c0, calls (state_of (iteration FastHash fn st pkg)) = calls st ++ [c0]) ∧
    ∃ new, calls (state_of (loop FastHash fn st evs)) = calls st ++ new ∧
           (length new ≤ length evs)%nat.
Proof.
  intros. split; [apply step_calls|apply loop_calls].
Qed.

(** X10: the stream of a flow is delivered once and in order.  Take an
    active flow [F] with the bytes [b] stored, then segments and datagrams
    of [F], with TCP packets without payload between them, carrying the
    payloads [ps] in arrival order.  If the loop gets through them and
    every Consumer call takes a part of its buffer and leaves at least one
    byte, then the bytes taken by the calls, in call order, followed by the
    bytes left stored for [F], are exactly [b ++ ps]: nothing is lost,
    repeated or reordered. *)
Theorem stream_is_delivered_once :
  ∀ (FastHash : Flow → Z) (CS : Type) (fn : @DataHandler CS)
    cs evs0 (st st' : @state CS) F b evs ps,
    loop FastHash (Some fn) (initial cs) evs0 = Continue st →
    contents st !! F = Some b →
    stream FastHash F evs = Some ps →
    loop FastHash (Some fn) st evs = Continue st' →
    forallb partial (drop (length (calls st)) (calls st')) = true →
    ∃ r, contents st' !! F = Some r ∧
         concat (consumed_of <$> drop (length (calls st)) (calls st')) ++ r
         = b ++ ps.
Proof.
  intros FastHash CS fn cs evs0 st st' F b evs ps Hreach.
  pose proof (reachable_wf FastHash _ _ _ _ Hreach) as Hwf. clear Hreach.
  revert st b ps Hwf.
  induction evs as [|ev evs IH]; intros st b ps Hwf Hb Hps Hloop Hpart.
  { simpl in Hps, Hloop. simplify_eq. exists b. split; [done|].
    by rewrite drop_all, app_nil_r. }
  simpl in Hps.
  destruct (stream_of FastHash F ev) as [p|] eqn:Hp; [|done].
  destruct (stream FastHash F evs) as [ps'|] eqn:Hps'; [|done].
  injection Hps as <-.
  destruct ev as [|[pkg|]]; try done. simpl in Hp.
  rewrite loop_cons in Hloop.
  assert (∀ src dst,
    classify FastHash pkg = Segment F src dst p ∨
    classify FastHash pkg = Datagram F src dst p →
    ∃ r, contents st' !! F = Some r ∧
         concat (consumed_of <$> drop (length (calls st)) (calls st')) ++ r
         = b ++ p ++ ps') as Hdata.
  { intros src dst Hk.
    destruct (fn (handlerState st) src dst (b ++ p)) as [[k err] cs'] eqn:E.
    destruct (step_active FastHash fn st pkg F src dst p b k err cs' Hwf Hb Hk E)
      as (Hw1 & Hc1 & _ & Hstore & _ & _).
    destruct (iteration FastHash (Some fn) st pkg) as [st1| |]; try done.
    simpl in Hw1, Hc1, Hstore.
    destruct (loop_calls FastHash (Some fn) evs st1) as (new & Hnew & _).
    rewrite Hloop in Hnew. simpl in Hnew.
    assert (drop (length (calls st)) (calls st')
            = Call src dst (b ++ p) k err :: new) as Hdrop.
    { rewrite Hnew, Hc1, <- app_assoc. by rewrite drop_app_length. }
    assert (drop (length (calls st1)) (calls st') = new) as Hdrop1.
    { rewrite Hnew. by rewrite drop_app_length. }
    rewrite Hdrop in Hpart |- *. simpl in Hpart.
    apply andb_true_iff in Hpart as [Hfirst Hrest].
    unfold partial in Hfirst. simpl in Hfirst.
    destruct err as [e|]; [done|]. apply bool_decide_eq_true in Hfirst.
    destruct (IH st1 (drop (Z.to_nat k) (b ++ p)) ps' Hw1) as (r & Hr & Heq).
    - rewrite (Hstore eq_refl Hfirst). apply lookup_insert_eq.
    - done.
    - done.
    - by rewrite Hdrop1.
    - exists r. split; [done|]. rewrite Hdrop1 in Heq.
      rewrite fmap_cons. simpl. unfold consumed_of at 1. simpl.
      rewrite <- app_assoc, Heq.
      rewrite (app_assoc (take (Z.to_nat k) (b ++ p))), take_drop.
      by rewrite <- app_assoc. }
  destruct (classify FastHash pkg) as [G|G|G|G src dst q|G src dst q|name|] eqn:Hk;
    try done.
  - injection Hp as <-.
    rewrite (iteration_bare FastHash fn st pkg G Hk) in Hloop.
    by apply (IH st b ps').
  - case_decide; [|done]. simplify_eq. eauto.
  - case_decide; [|done]. simplify_eq. eauto.
Qed.

Lemma stream_is_delivered_once_witness :
  let st := state_of (loop port_hash (Some take_one) (initial tt)
                           [recv (Some (handshake 1 2));
                            recv (Some (payload 1 2 "AB"))]) in
  let st' := state_of (loop port_hash (Some take_one) st
                            [recv (Some (payload 1 2 "CD"));
                             recv (Some (payload 2 1 ""));
                             recv (Some (payload 2 1 "EF"))]) in
  ∃ r, contents st' !! 6 = Some r ∧
       concat (consumed_of <$> drop (length (calls st)) (calls st')) ++ r
       = text "B" ++ text "CDEF".
Proof.
  intros st st'.
  apply (stream_is_delivered_once port_hash unit take_one tt
           [recv (Some (handshake 1 2)); recv (Some (payload 1 2 "AB"))]
           st st' 6 (text "B")
           [recv (Some (payload 1 2 "CD")); recv (Some (payload 2 1 ""));
            recv (Some (payload 2 1 "EF"))]
           (text "CDEF")).
  - vm_compute. reflexivity.
  - vm_compute. reflexivity.
  - vm_compute. reflexivity.
  - vm_compute. reflexivity.
  - vm_compute. reflexivity.
Defined.

(** X11: a capture that starts in mid-stream.  From the empty table, TCP
    packets that are no handshake (segments with payload, teardowns, bare
    acknowledgements) are all dropped: the loop goes through them without
    a Consumer call and without creating an entry. *)
Theorem tcp_before_any_handshake_is_dropped :
  ∀ (FastHash : Flow → Z) (CS : Type) (fn : @DataHandler CS) (cs : CS)
    (evs : list event),
    forallb (tcp_without_handshake FastHash) evs = true →
    loop FastHash (Some fn) (initial cs) evs = Continue (initial cs).
Proof.
  intros FastHash CS fn cs evs. induction evs as [|ev evs IH]; [done|].
  intros H. simpl in H. apply andb_true_iff in H as [Hev Hevs].
  destruct ev as [|[pkg|]]; try done. simpl in Hev. rewrite loop_cons.
  assert (iteration FastHash (Some fn) (initial cs) pkg = Continue (initial cs))
    as ->; [|by apply IH].
  destruct (classify FastHash pkg) as [G|G|G|G src dst p|G src dst p|name|] eqn:Hk;
    try done.
  - rewrite (iteration_teardown FastHash fn _ pkg G Hk). unfold with_buffers.
    simpl. by rewrite delete_empty.
  - by rewrite (iteration_bare FastHash fn _ pkg G Hk).
  - by rewrite (iteration_segment FastHash fn _ pkg G src dst p Hk).
Qed.

Lemma tcp_before_any_handshake_is_dropped_witness :
  loop port_hash (Some overrun) (initial tt)
       [recv (Some (payload 1 2 "AB")); recv (Some (payload 2 1 ""));
        recv (Some (teardown 1 2)); recv (Some (payload 3 4 "CD"))]
  = Continue (initial tt).
Proof.
  apply (tcp_before_any_handshake_is_dropped port_hash unit overrun tt).
  reflexivity.
Defined.

(** X16: a Consumer that takes every buffer whole.  Take an active flow
    [F] with nothing stored, as after its handshake, and a Consumer that
    always returns the length of its buffer and no error.  Over segments
    and datagrams of [F], with TCP packets without payload between them,
    the loop never stops, every call is handed bytes it takes whole, the
    bytes handed over are, in order, the payloads that arrived, and [F]
    still has nothing stored at the end. *)
Theorem whole_buffers_pass_through :
  ∀ (FastHash : Flow → Z) (CS : Type) (fn : @DataHandler CS)
    cs evs0 (st : @state CS) F evs ps,
    (∀ cs src dst data,
       (fn cs src dst data).1 = (Z.of_nat (length data), None)) →
    loop FastHash (Some fn) (initial cs) evs0 = Continue st →
    contents st !! F = Some [] →
    stream FastHash F evs = Some ps →
    ∃ st' new,
      loop FastHash (Some fn) st evs = Continue st' ∧
      calls st' = calls st ++ new ∧
      concat (call_data <$> new) = ps ∧
      Forall (λ c, consumed_of c = call_data c ∧ call_err c = None) new ∧
      contents st' !! F = Some [].
Proof.
  intros FastHash CS fn cs evs0 st F evs ps Hfull Hreach.
  pose proof (reachable_wf FastHash _ _ _ _ Hreach) as Hwf. clear Hreach.
  revert st ps Hwf.
  induction evs as [|ev evs IH]; intros st ps Hwf Hb Hps.
  { simpl in Hps. simplify_eq. exists st, []. by rewrite app_nil_r. }
  simpl in Hps.
  destruct (stream_of FastHash F ev) as [p|] eqn:Hp; [|done].
  destruct (stream FastHash F evs) as [ps'|] eqn:Hps'; [|done].
  injection Hps as <-.
  destruct ev as [|[pkg|]]; try done. simpl in Hp. rewrite loop_cons.
  assert (∀ src dst,
    classify FastHash pkg = Segment F src dst p ∨
    classify FastHash pkg = Datagram F src dst p →
    ∃ st' new,
      match iteration FastHash (Some fn) st pkg with
      | Continue st1 => loop FastHash (Some fn) st1 evs
      | stop => stop
      end = Continue st' ∧
      calls st' = calls st ++ new ∧
      concat (call_data <$> new) = p ++ ps' ∧
      Forall (λ c, consumed_of c = call_data c ∧ call_err c = None) new ∧
      contents st' !! F = Some []) as Hdata.
  { intros src dst Hk.
    destruct (fn (handlerState st) src dst ([] ++ p)) as [[k err] cs'] eqn:E.
    pose proof (Hfull (handlerState st) src dst ([] ++ p)) as Hres.
    rewrite E in Hres. simpl in Hres. injection Hres as -> ->.
    destruct (step_active FastHash fn st pkg F src dst p [] _ _ cs' Hwf Hb Hk E)
      as (Hw1 & Hc1 & _ & _ & Hkeep & Hend).
    unfold ended in Hend. rewrite decide_True in Hend by (simpl; lia).
    destruct (iteration FastHash (Some fn) st pkg) as [st1| |]; try done.
    simpl in Hw1, Hc1, Hkeep.
    destruct Hkeep as [_ Hcont]; [simpl; lia|].
    destruct (IH st1 ps' Hw1) as (st' & new & Hloop & Hcalls & Hcat & Hall & Hr);
      [by rewrite Hcont|done|].
    exists st', (Call src dst ([] ++ p) (Z.of_nat (length p)) None :: new).
    split; [done|]. split; [by rewrite Hcalls, Hc1, <- app_assoc|].
    split; [by rewrite fmap_cons; simpl; rewrite Hcat|].
    split; [|done]. constructor; [|done].
    split; [|done]. unfold consumed_of. simpl. rewrite Nat2Z.id. apply take_ge. done. }
  destruct (classify FastHash pkg) as [G|G|G|G src dst q|G src dst q|name|] eqn:Hk;
    try done.
  - injection Hp as <-.
    rewrite (iteration_bare FastHash fn st pkg G Hk). by apply IH.
  - case_decide; [|done]. simplify_eq. eauto.
  - case_decide; [|done]. simplify_eq. eauto.
Qed.

Lemma whole_buffers_pass_through_witness :
  let st := state_of (loop port_hash (Some take_all) (initial tt)
                           [recv (Some (handshake 1 2))]) in
  ∃ st' new,
    loop port_hash (Some take_all) st
         [recv (Some (payload 1 2 "AB")); recv (Some (payload 2 1 ""));
          recv (Some (payload 2 1 "CD"))] = Continue st' ∧
    calls st' = calls st ++ new ∧
    concat (call_data <$> new) = text "ABCD" ∧
    Forall (λ c, consumed_of c = call_data c ∧ call_err c = None) new ∧
    contents st' !! 6 = Some [].
Proof.
  intros st.
  apply (whole_buffers_pass_through port_hash unit take_all tt
           [recv (Some (handshake 1 2))] st 6).
  - reflexivity.
  - vm_compute. reflexivity.
  - vm_compute. reflexivity.
  - vm_compute. reflexivity.
Defined.

(** * Further properties of CreateHandler *)

(** X12: what a returned handle tells.  [CreateHandler] returns a handle
    only for a descriptor [pcap://source] or [file://source] whose source
    has no newline; the handle is live for [pcap] and offline for [file],
    never the other way round, and it is opened, without error, on the
    locator that lines 43-59 make of the source. *)
Theorem handle_only_for_the_two_modes :
  ∀ (sys : system) (dataSrc : string) (h : Handle),
    CreateHandler sys dataSrc = Ok h →
    ∃ source locator,
      dot_star_end source = true ∧
      resolve_source sys source = Ok locator ∧
      (dataSrc = "pcap://" +:+ source ∧ h = live_handle locator ∧
       OpenLive sys locator = None ∨
       dataSrc = "file://" +:+ source ∧ h = offline_handle locator ∧
       OpenOffline sys locator = None).
Proof.
  intros sys dataSrc h H.
  destruct (FindStringSubmatch dataSrc) as [m|] eqn:Hm.
  - destruct (FindStringSubmatch_Some _ _ Hm) as (source & Hd & [[-> _]|[-> _]]);
      destruct (CreateHandler_matched sys source Hd) as [Hlive Hfile];
      [rewrite Hlive in H|rewrite Hfile in H];
      destruct (resolve_source sys source) as [locator|] eqn:Hr; try done;
      exists source, locator; (split; [done|]); (split; [done|]).
    + left. destruct (OpenLive sys locator) eqn:Ho; [done|].
      by injection H as <-.
    + right. destruct (OpenOffline sys locator) eqn:Ho; [done|].
      by injection H as <-.
  - unfold CreateHandler in H. by rewrite Hm in H.
Qed.

Lemma handle_only_for_the_two_modes_witness :
  ∃ source locator,
    resolve_source host source = Ok locator ∧
    ("pcap://10.0.0.1" = "pcap://" +:+ source ∧ live_handle "eth0" = live_handle locator ∧
     OpenLive host locator = None ∨
     "pcap://10.0.0.1" = "file://" +:+ source ∧
     live_handle "eth0" = offline_handle locator ∧
     OpenOffline host locator = None).
Proof.
  destruct (handle_only_for_the_two_modes host "pcap://10.0.0.1" (live_handle "eth0"))
    as (source & locator & _ & Hr & Hcases).
  - vm_compute. reflexivity.
  - exists source, locator. split; [exact Hr|exact Hcases].
Defined.

(** X13: a failed interface enumeration.  When the source resolves to an
    address and [FindAllDevs] fails, [CreateHandler] fails with that error,
    wrapped, in live mode and in replay mode alike: a capture file whose
    name resolves cannot be opened on a host where the enumeration
    fails. *)
Theorem enumeration_failure_is_returned :
  ∀ (sys : system) (source : string) (ip : IP) (err : error),
    dot_star_end source = true →
    ResolveIPAddr sys source = Ok ip →
    FindAllDevs sys = Err err →
    CreateHandler sys ("pcap://" +:+ source) = Err (errors_WithStack err) ∧
    CreateHandler sys ("file://" +:+ source) = Err (errors_WithStack err).
Proof.
  intros sys source ip err Hd Hr Hdevs.
  destruct (CreateHandler_matched sys source Hd) as [-> ->].
  unfold resolve_source. by rewrite Hr, Hdevs.
Qed.

Lemma enumeration_failure_is_returned_witness :
  CreateHandler host_without_devs "file://10.0.0.1"
  = Err (errors_WithStack (errors_New "permission denied")).
Proof.
  apply (enumeration_failure_is_returned host_without_devs "10.0.0.1"
           [x0a; x00; x00; x01] (errors_New "permission denied"));
    reflexivity.
Defined.

(** X14: live mode without a match.  In live mode a source that does not
    resolve, or that resolves to an address no listed interface owns, is
    handed to [OpenLive] as it is, and the interfaces are not consulted
    when the source does not resolve; an error of [OpenLive] is returned
    wrapped. *)
Theorem live_locator_passes_through :
  ∀ (sys : system) (source : string),
    dot_star_end source = true →
    (∃ err, ResolveIPAddr sys source = Err err) ∨
    (∃ ip ifaceList,
       ResolveIPAddr sys source = Ok ip ∧ FindAllDevs sys = Ok ifaceList ∧
       forallb (λ iface, negb (existsb (λ addr, IP_Equal addr ip) (Addresses iface)))
               ifaceList = true) →
    CreateHandler sys ("pcap://" +:+ source)
    = match OpenLive sys source with
      | Some err => Err (errors_WithStack err)
      | None => Ok (live_handle source)
      end.
Proof.
  intros sys source Hd Hcases.
  destruct (CreateHandler_matched sys source Hd) as [-> _].
  assert (resolve_source sys source = Ok source) as ->; [|done].
  unfold resolve_source.
  destruct Hcases as [[err ->]|(ip & ifaceList & -> & -> & Hnone)]; [done|].
  f_equal. induction ifaceList as [|iface l IH]; [done|].
  simpl in Hnone |- *. apply andb_true_iff in Hnone as [Hi Hl].
  apply negb_true_iff in Hi. rewrite Hi. by apply IH.
Qed.

Lemma live_locator_passes_through_witness :
  CreateHandler host "pcap://wlan0" = Ok (live_handle "wlan0").
Proof.
  apply (live_locator_passes_through host "wlan0"); [reflexivity|].
  left. by exists (errors_New "no such host").
Defined.

(** X15: a newline in the source.  A descriptor whose source contains a
    newline does not match the pattern of line 23, whatever its mode: it
    fails with "invalid data source" and nothing is resolved or opened. *)
Theorem newline_in_source_is_rejected :
  ∀ (sys : system) (source : string),
    dot_star_end source = false →
    CreateHandler sys ("pcap://" +:+ source)
    = Err (invalid_data_source ("pcap://" +:+ source)) ∧
    CreateHandler sys ("file://" +:+ source)
    = Err (invalid_data_source ("file://" +:+ source)).
Proof.
  intros sys source Hd. unfold CreateHandler, FindStringSubmatch.
  change (strip_prefix "pcap://" ("pcap://" +:+ source)) with (Some source).
  change (strip_prefix "pcap://" ("file://" +:+ source)) with (@None string).
  change (strip_prefix "file://" ("file://" +:+ source)) with (Some source).
  cbv beta iota. by rewrite Hd.
Qed.

Lemma newline_in_source_is_rejected_witness :
  CreateHandler host ("pcap://" +:+ String "e" (String "010" ""))
  = Err (invalid_data_source ("pcap://" +:+ String "e" (String "010" ""))).
Proof.
  apply (newline_in_source_is_rejected host (String "e" (String "010" ""))).
  reflexivity.
Defined.
